(** * A shallow embedding of [mem.c], a header/footer heap allocator

    The C file manages one region obtained from [mmap] with three public
    functions, [Mem_Init], [Mem_Alloc] and [Mem_Free], and one debugging
    function, [Mem_Dump].  Every block starts with a [blk_hdr], a struct
    holding a single [int size_status]; free blocks also end with one.

    Conventions of the model:
    - an [int] is a [Z] kept in the 32-bit two's-complement range by [wrap];
    - an address is a byte offset from the start of the mapped region, the
      null pointer is [None];
    - arithmetic on a [blk_hdr*] is scaled by [sizeof(blk_hdr) = 4], as C
      does; arithmetic on a [char*] or [void*] is in bytes;
    - addresses are not wrapped: a pointer is wider than an [int];
    - signed overflow, undefined in C, wraps;
    - a computation returns a value, faults (an access outside the mapped
      region, a null dereference, a division by zero) or runs out of fuel
      (the [while] loops of the source have no bound of their own). *)

From stdpp Require Import base gmap.
From Stdlib Require Import ZArith Lia.

Open Scope Z_scope.

(* [lia] also decides goals with division and remainder by constants. *)
Ltac Zify.zify_post_hook ::= Z.to_euclidean_division_equations.

(** ** 32-bit [int] arithmetic *)

Definition int_min : Z := - 2 ^ 31.
Definition int_max : Z := 2 ^ 31 - 1.

Definition wrap (z : Z) : Z := (z + 2 ^ 31) mod 2 ^ 32 - 2 ^ 31.

Definition add32 (a b : Z) : Z := wrap (a + b).
Definition sub32 (a b : Z) : Z := wrap (a - b).
Definition mul32 (a b : Z) : Z := wrap (a * b).

(** ** Outcomes of a computation *)

Inductive result (A : Type) : Type :=
| Ret (a : A)
| Fault
| Timeout.

Arguments Ret {A} a.
Arguments Fault {A}.
Arguments Timeout {A}.

#[global] Instance result_ret : MRet result := fun _ a => Ret a.
#[global] Instance result_bind : MBind result := fun _ _ f m =>
  match m with
  | Ret a => f a
  | Fault => Fault
  | Timeout => Timeout
  end.

(** ** The mapped region

    [mmap] of [/dev/zero] gives a zero-filled region: a cell that was never
    written reads as [0].  [cells] is keyed by byte offset. *)

Record heap : Type := Heap {
  region_size : Z;
  cells : gmap Z Z
}.

Definition sizeof_blk_hdr : Z := 4.

Definition mapped (h : heap) (a : Z) : bool :=
  (0 <=? a) && (a + sizeof_blk_hdr <=? region_size h) && (a mod 4 =? 0).

Definition load (h : heap) (a : Z) : result Z :=
  if mapped h a then Ret (default 0 (cells h !! a)) else Fault.

Definition store (h : heap) (a v : Z) : result heap :=
  if mapped h a
  then Ret (Heap (region_size h) (<[a := v]> (cells h)))
  else Fault.

(** A pointer: [None] is [NULL], [Some a] is the region base plus [a] bytes. *)
Definition ptr : Type := option Z.

(** [p + k] for [p : blk_hdr*]. *)
Definition hdr_plus (p k : Z) : Z := p + sizeof_blk_hdr * k.

(** The globals of the file: [first_blk], the [static int allocated_once]
    of [Mem_Init], and the memory the process has mapped. *)
Record state : Type := State {
  allocated_once : Z;
  first_blk : ptr;
  mem : heap
}.

Definition initial_state : state :=
  State 0 None (Heap 0 ∅).

(** ** [Mem_Dump] *)

Record dump_row : Type := Row {
  row_no : Z;
  row_busy : bool;
  row_prev_busy : bool;
  t_begin : Z;
  t_end : Z;
  t_size : Z
}.

Record dump_report : Type := Report {
  rows : list dump_row;
  busy_size : Z;
  free_size : Z
}.

(** How [Mem_Dump] reads a header word: [if (t_size & 1)] busy, and one is
    subtracted; then [if (t_size & 2)] the previous block is busy, and two
    is subtracted; what is left is the size. *)
Definition hdr_busy (w : Z) : bool := negb (Z.land w 1 =? 0).

Definition strip_busy (w : Z) : Z := if hdr_busy w then sub32 w 1 else w.

Definition hdr_prev_busy (w : Z) : bool :=
  negb (Z.land (strip_busy w) 2 =? 0).

Definition hdr_size (w : Z) : Z :=
  if hdr_prev_busy w then sub32 (strip_busy w) 2 else strip_busy w.

Fixpoint dump_loop (fuel : nat) (h : heap) (current counter busy free : Z)
  : result dump_report :=
  match fuel with
  | O => Timeout
  | S fuel' =>
    w ← load h current;
    if w =? 1 then Ret (Report [] busy free)
    else
      let size := hdr_size w in
      let busy' := if hdr_busy w then add32 busy size else busy in
      let free' := if hdr_busy w then free else add32 free size in
      let row := Row counter (hdr_busy w) (hdr_prev_busy w)
                     current (current + size - 1) size in
      r ← dump_loop fuel' h (current + size) (add32 counter 1) busy' free';
      Ret (Report (row :: rows r) (busy_size r) (free_size r))
  end.

Definition Mem_Dump (fuel : nat) (st : state) : result dump_report :=
  match first_blk st with
  | None => Fault
  | Some first => dump_loop fuel (mem st) first 1 0 0
  end.

(** ** [Mem_Alloc] *)

(** [size += 4; if (size % 8 != 0) size = (size / 8 + 1) * 8;] with C's
    truncating division. *)
Definition needed_size (size : Z) : Z :=
  let size := add32 size 4 in
  if negb (Z.rem size 8 =? 0)
  then mul32 (add32 (Z.quot size 8) 1) 8
  else size.

(** How the [while] loop is left: by the [return] inside it, or by its
    condition with the current [minSize] and [minBlock]. *)
Inductive scan_exit : Type :=
| Returned (h : heap) (p : ptr)
| Exited (minSize minBlock : Z).

(** The loop of [Mem_Alloc].  The header under [ptr] is not written before
    the loop is left, so every [ptr->size_status] of one iteration reads the
    same word [w]. *)
Fixpoint scan (fuel : nat) (st : state) (size p minSize minBlock : Z)
  : result scan_exit :=
  match fuel with
  | O => Timeout
  | S fuel' =>
    w ← load (mem st) p;
    if w =? 1 then Ret (Exited minSize minBlock)
    else if Z.land w 1 =? 1 then
      if Z.land w 3 =? 3 then
        let currSize := sub32 w 3 in
        scan fuel' st size (hdr_plus p currSize) minSize minBlock
      else
        let currSize := sub32 w 1 in
        _ ← Mem_Dump fuel' st;
        scan fuel' st size (hdr_plus p currSize) minSize minBlock
    else if w >? add32 size 2 then
      if minSize =? -1 then
        scan fuel' st size p (sub32 w 2) p
      else if Z.land w 2 =? 2 then
        if sub32 w 2 <? minSize
        then scan fuel' st size p (sub32 w 2) p
        else scan fuel' st size p minSize minBlock
      else
        if w <? minSize
        then scan fuel' st size p w p
        else scan fuel' st size p minSize minBlock
    else if (w =? size) || (sub32 w 2 =? size) then
      h' ← store (mem st) p (add32 w 1);
      Ret (Returned h' (Some (hdr_plus p 4)))
    else if Z.land w 2 =? 2 then
      let currSize := sub32 w 2 in
      scan fuel' st size (hdr_plus p currSize) minSize minBlock
    else
      let currSize := w in
      scan fuel' st size (hdr_plus p currSize) minSize minBlock
  end.

(** The code after the loop, under [if (minSize != -1)]. *)
Definition split (h : heap) (size minSize minBlock : Z) : result (heap * ptr) :=
  w ← load h minBlock;
  h1 ← store h minBlock
         (if Z.land w 2 =? 2 then add32 size 3 else add32 size 1);
  let nextBlock := hdr_plus minBlock size in
  h2 ← store h1 nextBlock (add32 (sub32 minSize size) 2);
  let footer := hdr_plus (hdr_plus minBlock minSize) (- 4) in
  h3 ← store h2 footer (sub32 minSize size);
  Ret (h3, Some (hdr_plus minBlock 4)).

(** Everything after the sanity check. *)
Definition alloc_search (fuel : nat) (st : state) (size : Z)
  : result (state * ptr) :=
  match first_blk st with
  | None => Fault
  | Some first =>
    e ← scan fuel st size first (-1) first;
    match e with
    | Returned h' p => Ret (State (allocated_once st) (first_blk st) h', p)
    | Exited minSize minBlock =>
      if negb (minSize =? -1) then
        '(h', p) ← split (mem st) size minSize minBlock;
        Ret (State (allocated_once st) (first_blk st) h', p)
      else Ret (st, None)
    end
  end.

Definition Mem_Alloc (fuel : nat) (st : state) (size : Z)
  : result (state * ptr) :=
  if size =? 0 then Ret (st, None)
  else alloc_search fuel st (needed_size size).

(** ** [Mem_Free]

    Every statement of the body but [return 0;] is commented out in the
    source. *)
Definition Mem_Free (st : state) (p : ptr) : state * Z := (st, 0).

(** ** [Mem_Init] *)

(** What the operating system answers during one call. *)
Record os_reply : Type := Os {
  getpagesize : Z;
  open_ok : bool;
  mmap_ok : bool
}.

Definition Mem_Init (os : os_reply) (st : state) (sizeOfRegion : Z)
  : result (state * Z) :=
  if negb (0 =? allocated_once st) then Ret (st, -1)
  else if sizeOfRegion <=? 0 then Ret (st, -1)
  else
    let pagesize := getpagesize os in
    if pagesize =? 0 then Fault
    else
      let padsize := Z.rem sizeOfRegion pagesize in
      let padsize := Z.rem (sub32 pagesize padsize) pagesize in
      let alloc_size := add32 sizeOfRegion padsize in
      if negb (open_ok os) then Ret (st, -1)
      else if negb (mmap_ok os)
      then Ret (State 0 (first_blk st) (mem st), -1)
      else
        let space := Heap alloc_size ∅ in
        let alloc_size := sub32 alloc_size 8 in
        let first := hdr_plus 0 1 in
        let end_mark := first + alloc_size in
        h1 ← store space first alloc_size;
        w ← load h1 first;
        h2 ← store h1 first (add32 w 2);
        h3 ← store h2 end_mark 1;
        let footer := first + alloc_size - 4 in
        h4 ← store h3 footer alloc_size;
        Ret (State 1 (Some first) h4, 0).

(** ** Sequences of public calls *)

Inductive call : Type :=
| CallInit (os : os_reply) (sizeOfRegion : Z)
| CallAlloc (size : Z)
| CallFree (p : ptr)
| CallDump.

Definition run_call (fuel : nat) (st : state) (c : call) : result state :=
  match c with
  | CallInit os n => '(st', _) ← Mem_Init os st n; Ret st'
  | CallAlloc n => '(st', _) ← Mem_Alloc fuel st n; Ret st'
  | CallFree p => Ret (fst (Mem_Free st p))
  | CallDump => _ ← Mem_Dump fuel st; Ret st
  end.

Fixpoint run_calls (fuel : nat) (st : state) (cs : list call) : result state :=
  match cs with
  | [] => Ret st
  | c :: cs' => st' ← run_call fuel st c; run_calls fuel st' cs'
  end.

(** ** Facts about [int] arithmetic and the status bits *)

Lemma wrap_id z : int_min <= z <= int_max -> wrap z = z.
Proof.
  unfold int_min, int_max, wrap. intros Hz.
  rewrite Z.mod_small by lia. lia.
Qed.

Lemma wrap_range z : int_min <= wrap z <= int_max.
Proof.
  unfold int_min, int_max, wrap.
  pose proof (Z.mod_pos_bound (z + 2 ^ 31) (2 ^ 32)). lia.
Qed.

Lemma wrap_parity z : wrap z mod 2 = z mod 2.
Proof.
  unfold wrap.
  change (2 ^ 31) with 2147483648. change (2 ^ 32) with (2 * 2147483648).
  rewrite (Z.mod_eq (z + 2147483648)) by lia.
  generalize ((z + 2147483648) / (2 * 2147483648)). intros q.
  replace (z + 2147483648 - 2 * 2147483648 * q - 2147483648)
    with (z + (- 2147483648 * q) * 2) by lia.
  apply Z.mod_add. lia.
Qed.

Lemma land_1 w : Z.land w 1 = w mod 2.
Proof. exact (Z.land_ones w 1 ltac:(lia)). Qed.

Lemma land_3 w : Z.land w 3 = w mod 4.
Proof. exact (Z.land_ones w 2 ltac:(lia)). Qed.

Lemma land_2 w : Z.land w 2 = if w mod 4 <? 2 then 0 else 2.
Proof.
  replace (Z.land w 2) with (Z.land (Z.land w 3) 2)
    by (rewrite <- Z.land_assoc; reflexivity).
  rewrite land_3.
  assert (Hr : w mod 4 = 0 \/ w mod 4 = 1 \/ w mod 4 = 2 \/ w mod 4 = 3)
    by (pose proof (Z.mod_pos_bound w 4); lia).
  destruct Hr as [-> | [-> | [-> | ->]]]; reflexivity.
Qed.

Lemma free_word_even w : Z.land w 1 <> 1 -> w mod 2 = 0.
Proof. rewrite land_1. lia. Qed.

Lemma sub32_even_not_m1 w : w mod 2 = 0 -> sub32 w 2 <> -1.
Proof.
  intros Hw Heq. pose proof (wrap_parity (w - 2)) as Hp.
  unfold sub32 in Heq. rewrite Heq in Hp. lia.
Qed.

(** ** The loop of [Mem_Alloc] never leaves a candidate *)

(** The branch that records a candidate ([ptr->size_status > size + 2]) does
    not advance [ptr] and writes nothing: the next iteration reads the same
    word and takes the same branch. *)
Lemma scan_stuck fuel st size p w :
  load (mem st) p = Ret w ->
  w <> 1 -> Z.land w 1 <> 1 -> w > add32 size 2 ->
  forall minSize minBlock, minSize <> -1 ->
    scan fuel st size p minSize minBlock = Timeout.
Proof.
  intros Hload Hw1 Hfree Hbig.
  pose proof (free_word_even w Hfree) as Heven.
  induction fuel as [| fuel IH]; intros minSize minBlock Hmin; [reflexivity |].
  cbn [scan]. rewrite Hload. cbn.
  destruct (Z.eqb_spec w 1); [contradiction |].
  destruct (Z.eqb_spec (Z.land w 1) 1); [contradiction |].
  destruct (Z.gtb_spec w (add32 size 2)); [| lia].
  destruct (Z.eqb_spec minSize (-1)); [contradiction |].
  destruct (Z.land w 2 =? 2).
  - destruct (sub32 w 2 <? minSize); apply IH;
      [apply sub32_even_not_m1; exact Heven | exact Hmin].
  - destruct (w <? minSize); apply IH; [lia | exact Hmin].
Qed.

(** So the loop is never left through its condition with a candidate: the
    code under [if (minSize != -1)] is never run. *)
Lemma scan_exit_no_candidate fuel st size :
  forall p minBlock minSize' minBlock',
    scan fuel st size p (-1) minBlock = Ret (Exited minSize' minBlock') ->
    minSize' = -1.
Proof.
  induction fuel as [| fuel IH]; intros p mb ms' mb'; [discriminate |].
  cbn [scan]. destruct (load (mem st) p) as [w | |] eqn:Hload; cbn;
    [| discriminate | discriminate].
  destruct (Z.eqb_spec w 1); [intros [= <- _]; reflexivity |].
  destruct (Z.eqb_spec (Z.land w 1) 1) as [Hb | Hb].
  - destruct (Z.land w 3 =? 3); [apply IH |].
    destruct (Mem_Dump fuel st); cbn; [apply IH | discriminate | discriminate].
  - destruct (Z.gtb_spec w (add32 size 2)) as [Hbig | Hbig].
    + cbn. rewrite (scan_stuck fuel st size p w Hload); [discriminate | | | |];
        try assumption; [lia |].
      apply sub32_even_not_m1, free_word_even, Hb.
    + destruct ((w =? size) || (sub32 w 2 =? size)).
      * destruct (store (mem st) p (add32 w 1)); cbn; discriminate.
      * destruct (Z.land w 2 =? 2); apply IH.
Qed.

(** When the loop is left by its [return], the block under [ptr] was free,
    of exactly the size asked for, and only its header was written. *)
Lemma scan_returned fuel st size :
  forall p minSize minBlock h' q,
    scan fuel st size p minSize minBlock = Ret (Returned h' q) ->
    exists blk w,
      load (mem st) blk = Ret w /\
      Z.land w 1 <> 1 /\
      (w = size \/ sub32 w 2 = size) /\
      store (mem st) blk (add32 w 1) = Ret h' /\
      q = Some (hdr_plus blk 4).
Proof.
  induction fuel as [| fuel IH]; intros p ms mb h' q; [discriminate |].
  cbn [scan]. destruct (load (mem st) p) as [w | |] eqn:Hload; cbn;
    [| discriminate | discriminate].
  destruct (Z.eqb_spec w 1); [discriminate |].
  destruct (Z.eqb_spec (Z.land w 1) 1) as [Hb | Hb].
  - destruct (Z.land w 3 =? 3); [apply IH |].
    destruct (Mem_Dump fuel st); cbn; [apply IH | discriminate | discriminate].
  - destruct (w >? add32 size 2).
    + destruct (ms =? -1); [apply IH |].
      destruct (Z.land w 2 =? 2);
        [destruct (sub32 w 2 <? ms) | destruct (w <? ms)]; apply IH.
    + destruct ((w =? size) || (sub32 w 2 =? size)) eqn:Hfit.
      * destruct (store (mem st) p (add32 w 1)) as [h1 | |] eqn:Hst; cbn;
          [| discriminate | discriminate].
        intros [= <- <-]. exists p, w. repeat split; try assumption.
        apply orb_true_iff in Hfit. destruct Hfit as [H | H];
          apply Z.eqb_eq in H; auto.
      * destruct (Z.land w 2 =? 2); apply IH.
Qed.

(** A free block larger than the request traps the loop from its first
    visit on, whatever was recorded before. *)
Lemma scan_diverges_at_candidate fuel st size p w minSize minBlock :
  load (mem st) p = Ret w ->
  w <> 1 -> Z.land w 1 <> 1 -> w > add32 size 2 ->
  scan fuel st size p minSize minBlock = Timeout.
Proof.
  intros Hload Hw1 Hfree Hbig.
  destruct (Z.eq_dec minSize (-1)) as [-> | Hmin];
    [| apply (scan_stuck fuel st size p w); assumption].
  destruct fuel as [| fuel]; [reflexivity |].
  cbn [scan]. rewrite Hload. cbn.
  destruct (Z.eqb_spec w 1); [contradiction |].
  destruct (Z.eqb_spec (Z.land w 1) 1); [contradiction |].
  destruct (Z.gtb_spec w (add32 size 2)); [| lia].
  apply (scan_stuck fuel st size p w); try assumption.
  apply sub32_even_not_m1, free_word_even, Hfree.
Qed.

(** A word that was never written reads as [0], a free block of size [0]:
    the loop advances by [0] headers and reads it again. *)
Lemma scan_spins_on_zero fuel st size p :
  load (mem st) p = Ret 0 ->
  0 <= add32 size 2 -> size <> 0 -> size <> sub32 0 2 ->
  forall minSize minBlock, scan fuel st size p minSize minBlock = Timeout.
Proof.
  intros Hload Hsmall Hne0 Hne2.
  induction fuel as [| fuel IH]; intros minSize minBlock; [reflexivity |].
  cbn [scan]. rewrite Hload. cbn [mbind result_bind].
  destruct (Z.gtb_spec 0 (add32 size 2)); [lia |].
  destruct (Z.eqb_spec 0 size); [congruence |].
  destruct (Z.eqb_spec (sub32 0 2) size); [congruence |].
  change (scan fuel st size (hdr_plus p 0) minSize minBlock = Timeout).
  replace (hdr_plus p 0) with p by (unfold hdr_plus; lia).
  apply IH.
Qed.

(** An access outside the mapped region ends the loop without a result. *)
Lemma scan_unmapped fuel st size p minSize minBlock e :
  load (mem st) p = Fault ->
  scan fuel st size p minSize minBlock <> Ret e.
Proof.
  intros Hload. destruct fuel; [discriminate |].
  cbn [scan]. rewrite Hload. discriminate.
Qed.

(** ** What a returning [Mem_Alloc] has done *)

Lemma alloc_search_returns fuel st size st' q :
  alloc_search fuel st size = Ret (st', q) ->
  (st' = st /\ q = None) \/
  exists blk w,
    load (mem st) blk = Ret w /\
    Z.land w 1 <> 1 /\
    (w = size \/ sub32 w 2 = size) /\
    store (mem st) blk (add32 w 1) = Ret (mem st') /\
    allocated_once st' = allocated_once st /\
    first_blk st' = first_blk st /\
    q = Some (hdr_plus blk 4).
Proof.
  unfold alloc_search. destruct (first_blk st) as [first |] eqn:Hfirst;
    [| discriminate].
  destruct (scan fuel st size first (-1) first) as [e | |] eqn:Hscan; cbn;
    [| discriminate | discriminate].
  destruct e as [h' p | minSize minBlock].
  - intros [= <- <-]. right.
    destruct (scan_returned _ _ _ _ _ _ _ _ Hscan) as (blk & w & H1 & H2 & H3 & H4 & H5).
    exists blk, w. cbn. auto 10.
  - rewrite (scan_exit_no_candidate _ _ _ _ _ _ _ Hscan). cbn.
    intros [= <- <-]. left. auto.
Qed.

Lemma Mem_Alloc_returns fuel st size st' q :
  Mem_Alloc fuel st size = Ret (st', q) ->
  (st' = st /\ q = None) \/
  exists blk w,
    load (mem st) blk = Ret w /\
    Z.land w 1 <> 1 /\
    (w = needed_size size \/ sub32 w 2 = needed_size size) /\
    store (mem st) blk (add32 w 1) = Ret (mem st') /\
    allocated_once st' = allocated_once st /\
    first_blk st' = first_blk st /\
    q = Some (hdr_plus blk 4).
Proof.
  unfold Mem_Alloc. destruct (size =? 0).
  - intros [= <- <-]. left. auto.
  - apply alloc_search_returns.
Qed.

Lemma Mem_Alloc_keeps_flag fuel st size st' q :
  Mem_Alloc fuel st size = Ret (st', q) ->
  allocated_once st' = allocated_once st.
Proof.
  intros H. destruct (Mem_Alloc_returns _ _ _ _ _ H) as [[-> _] | (blk & w & H')];
    [reflexivity | tauto].
Qed.

(** ** Accesses inside and outside the region *)

Lemma mapped_true h a :
  0 <= a -> a + 4 <= region_size h -> a mod 4 = 0 -> mapped h a = true.
Proof.
  intros H0 H1 H2. unfold mapped, sizeof_blk_hdr.
  rewrite H2. cbn. rewrite andb_true_r, andb_true_iff. lia.
Qed.

Lemma load_mapped h a :
  0 <= a -> a + 4 <= region_size h -> a mod 4 = 0 ->
  load h a = Ret (default 0 (cells h !! a)).
Proof. intros. unfold load. rewrite mapped_true; auto. Qed.

Lemma store_mapped h a v :
  0 <= a -> a + 4 <= region_size h -> a mod 4 = 0 ->
  store h a v = Ret (Heap (region_size h) (<[a := v]> (cells h))).
Proof. intros. unfold store. rewrite mapped_true; auto. Qed.

Lemma load_beyond h a : region_size h < a + 4 -> load h a = Fault.
Proof.
  intros H. unfold load, mapped, sizeof_blk_hdr.
  destruct (Z.leb_spec (a + 4) (region_size h)); [lia |].
  rewrite andb_false_r. reflexivity.
Qed.

(** ** [Mem_Init] and the chain it builds *)

(** The least multiple of [pagesize] that is at least [n]. *)
Definition round_up_to_page (n pagesize : Z) : Z :=
  pagesize * ((n + pagesize - 1) / pagesize).

Lemma round_up_to_page_spec n pagesize :
  0 < pagesize ->
  round_up_to_page n pagesize mod pagesize = 0 /\
  n <= round_up_to_page n pagesize < n + pagesize.
Proof.
  intros Hp. unfold round_up_to_page. split.
  - rewrite Z.mul_comm. apply Z.mod_mul. lia.
  - pose proof (Z.mul_div_le (n + pagesize - 1) pagesize Hp).
    pose proof (Z.mul_succ_div_gt (n + pagesize - 1) pagesize Hp). lia.
Qed.

(** [padsize] as [Mem_Init] computes it brings the size to that multiple. *)
Lemma padded_size n pagesize :
  0 < n -> 0 < pagesize -> pagesize <= int_max ->
  n + Z.rem (sub32 pagesize (Z.rem n pagesize)) pagesize
  = round_up_to_page n pagesize.
Proof.
  intros Hn Hp Hmax.
  rewrite (Z.rem_mod_nonneg n pagesize) by lia.
  pose proof (Z.mod_pos_bound n pagesize Hp) as Hr.
  unfold sub32. rewrite wrap_id by (unfold int_min, int_max in *; lia).
  rewrite Z.rem_mod_nonneg by lia.
  unfold round_up_to_page.
  pose proof (Z.div_mod n pagesize ltac:(lia)) as Hdm.
  set (q := n / pagesize) in *. set (r := n mod pagesize) in *.
  destruct (Z.eq_dec r 0) as [Hr0 | Hr0].
  - rewrite Hr0, Z.sub_0_r, Z.mod_same by lia.
    replace (n + pagesize - 1) with ((pagesize - 1) + q * pagesize) by lia.
    rewrite Z.div_add by lia. rewrite Z.div_small by lia. lia.
  - rewrite (Z.mod_small (pagesize - r)) by lia.
    replace (n + pagesize - 1) with ((r - 1) + (q + 1) * pagesize) by lia.
    rewrite Z.div_add by lia. rewrite Z.div_small by lia. lia.
Qed.

(** The region right after a successful [Mem_Init] of [R] bytes: the
    header of the one free block at offset 4, its footer in the last word
    but one, the end mark in the last word. *)
Definition init_heap (R : Z) : heap :=
  Heap R (<[R - 8 := R - 8]>
         (<[R - 4 := 1]>
         (<[4 := R - 6]>
         (<[4 := R - 8]> ∅)))).

Definition init_state (R : Z) : state := State 1 (Some 4) (init_heap R).

(** What every state reached after a successful [Mem_Init] of [R] bytes
    looks like: a first header at offset 4 holding a block of [R - 8] bytes,
    free or busy, with its predecessor bit set, and the end mark in the last
    word. *)
Definition chain_shape (R : Z) (st : state) : Prop :=
  allocated_once st = 1 /\
  first_blk st = Some 4 /\
  region_size (mem st) = R /\
  (cells (mem st) !! 4 = Some (R - 6) \/ cells (mem st) !! 4 = Some (R - 5)) /\
  cells (mem st) !! (R - 4) = Some 1.

(** The rows of a dump lie end to end from [start] to [stop]. *)
Fixpoint contiguous (start : Z) (rs : list dump_row) (stop : Z) : Prop :=
  match rs with
  | [] => start = stop
  | r :: rs' =>
    t_begin r = start /\ 0 < t_size r /\ t_end r = start + t_size r - 1 /\
    contiguous (start + t_size r) rs' stop
  end.

(** The sum of the block sizes of a dump, and that sum with the size held
    by the end mark, whose word is [1]. *)
Definition sum_sizes (rs : list dump_row) : Z :=
  foldr (fun r acc => t_size r + acc) 0 rs.

Definition end_mark_word : Z := 1.

Definition chain_total (r : dump_report) : Z :=
  sum_sizes (rows r) + hdr_size end_mark_word.

Section Chain.
Variable R : Z.
Hypothesis R_min : 16 <= R.
Hypothesis R_aligned : R mod 8 = 0.
Hypothesis R_int : R <= int_max.

Lemma init_state_shape : chain_shape R (init_state R).
Proof.
  unfold chain_shape, init_state, init_heap. cbn.
  repeat split; auto.
  - left. rewrite lookup_insert_ne by lia. rewrite lookup_insert_ne by lia.
    apply lookup_insert_eq.
  - rewrite lookup_insert_ne by lia. apply lookup_insert_eq.
Qed.

Lemma first_header st :
  chain_shape R st ->
  exists w, load (mem st) 4 = Ret w /\ (w = R - 6 \/ w = R - 5).
Proof.
  intros (_ & _ & HR & Hw & _).
  rewrite load_mapped by (rewrite ?HR; lia).
  destruct Hw as [-> | ->]; cbn; eauto.
Qed.

Lemma end_mark_loaded st :
  chain_shape R st -> load (mem st) (R - 4) = Ret 1.
Proof.
  intros (_ & _ & HR & _ & He).
  rewrite load_mapped by (rewrite ?HR; lia).
  rewrite He. reflexivity.
Qed.

Lemma past_the_region st k :
  chain_shape R st -> k = R - 8 -> load (mem st) (hdr_plus 4 k) = Fault.
Proof.
  intros (_ & _ & HR & _) ->. apply load_beyond.
  unfold hdr_plus, sizeof_blk_hdr. lia.
Qed.

Lemma hdr_size_free : hdr_size (R - 6) = R - 8.
Proof.
  unfold hdr_size, hdr_prev_busy, strip_busy, hdr_busy.
  rewrite land_1. replace ((R - 6) mod 2) with 0 by lia. cbn.
  rewrite land_2. replace ((R - 6) mod 4) with 2 by lia. cbn.
  unfold sub32. rewrite wrap_id by (unfold int_min, int_max in *; lia). lia.
Qed.

Lemma hdr_size_busy : hdr_size (R - 5) = R - 8.
Proof.
  unfold hdr_size, hdr_prev_busy, strip_busy, hdr_busy.
  rewrite land_1. replace ((R - 5) mod 2) with 1 by lia. cbn.
  unfold sub32.
  rewrite (wrap_id (R - 5 - 1)) by (unfold int_min, int_max in *; lia).
  rewrite land_2. replace ((R - 5 - 1) mod 4) with 2 by lia. cbn.
  rewrite wrap_id by (unfold int_min, int_max in *; lia). lia.
Qed.

(** [Mem_Dump] walks such a chain in two steps. *)
Lemma shape_dump st :
  chain_shape R st ->
  exists b, forall k,
    Mem_Dump (S (S k)) st
    = Ret (Report [Row 1 b true 4 (R - 5) (R - 8)]
                  (if b then R - 8 else 0) (if b then 0 else R - 8)).
Proof.
  intros Hs. destruct (first_header st Hs) as (w & Hload & Hw).
  pose proof (end_mark_loaded st Hs) as Hend.
  destruct Hs as (_ & Hfirst & _).
  assert (Hsize : hdr_size w = R - 8)
    by (destruct Hw as [-> | ->]; [apply hdr_size_free | apply hdr_size_busy]).
  assert (Hprev : hdr_prev_busy w = true).
  { unfold hdr_prev_busy, strip_busy, hdr_busy. rewrite land_1.
    destruct Hw as [-> | ->].
    - replace ((R - 6) mod 2) with 0 by lia. cbn.
      rewrite land_2. replace ((R - 6) mod 4) with 2 by lia. reflexivity.
    - replace ((R - 5) mod 2) with 1 by lia. cbn. unfold sub32.
      rewrite wrap_id by (unfold int_min, int_max in *; lia).
      rewrite land_2. replace ((R - 5 - 1) mod 4) with 2 by lia. reflexivity. }
  exists (hdr_busy w). intros k.
  unfold Mem_Dump. rewrite Hfirst. cbn [dump_loop].
  rewrite Hload. cbn [mbind result_bind].
  destruct (Z.eqb_spec w 1); [lia |].
  rewrite Hsize, Hprev. replace (4 + (R - 8)) with (R - 4) by lia.
  rewrite Hend. cbn [mbind result_bind Z.eqb Pos.eqb rows busy_size free_size].
  unfold add32. rewrite !Z.add_0_l.
  rewrite wrap_id by (unfold int_min, int_max in *; lia).
  replace (R - 4 - 1) with (R - 5) by lia.
  destruct (hdr_busy w); reflexivity.
Qed.

(** A returning [Mem_Alloc] keeps the shape: either nothing is written or
    the busy bit of the first header is set. *)
Lemma shape_alloc fuel st size st' q :
  chain_shape R st ->
  Mem_Alloc fuel st size = Ret (st', q) ->
  chain_shape R st'.
Proof.
  intros Hs. destruct (first_header st Hs) as (w & Hload & Hw).
  pose proof (past_the_region st (R - 8) Hs eq_refl) as Hout.
  pose proof Hs as (Hflag & Hfirst & HR & _ & Hend).
  unfold Mem_Alloc. destruct (size =? 0); [intros [= <- _]; exact Hs |].
  unfold alloc_search. rewrite Hfirst.
  set (need := needed_size size).
  destruct fuel as [| fuel]; [discriminate |].
  cbn [scan]. rewrite Hload. cbn [mbind result_bind].
  destruct (Z.eqb_spec w 1); [lia |].
  rewrite land_1, land_3, land_2.
  destruct Hw as [-> | ->].
  - (* the block is free *)
    replace ((R - 6) mod 2) with 0 by lia.
    replace ((R - 6) mod 4) with 2 by lia.
    change (0 =? 1) with false. change ((if 2 <? 2 then 0 else 2) =? 2) with true.
    cbv iota.
    assert (Hsub : sub32 (R - 6) 2 = R - 8)
      by (unfold sub32; rewrite wrap_id by (unfold int_min, int_max in *; lia); lia).
    destruct (Z.gtb_spec (R - 6) (add32 need 2)) as [Hbig | Hbig].
    + change (-1 =? -1) with true. cbv iota.
      rewrite (scan_stuck fuel st need 4 (R - 6) Hload); try lia.
      * discriminate.
      * rewrite land_1. lia.
    + destruct ((R - 6 =? need) || (sub32 (R - 6) 2 =? need)).
      * rewrite store_mapped by (rewrite ?HR; lia).
        cbn [mbind result_bind]. intros [= <- _].
        unfold chain_shape. cbn. repeat split; auto.
        -- right. rewrite lookup_insert_eq. f_equal. unfold add32.
           rewrite wrap_id by (unfold int_min, int_max in *; lia). lia.
        -- rewrite lookup_insert_ne by lia. exact Hend.
      * rewrite Hsub.
        destruct (scan fuel st need (hdr_plus 4 (R - 8)) (-1) 4) eqn:Hscan;
          [| discriminate | discriminate].
        exfalso. exact (scan_unmapped _ _ _ _ _ _ _ Hout Hscan).
  - (* the block is busy *)
    replace ((R - 5) mod 2) with 1 by lia.
    replace ((R - 5) mod 4) with 3 by lia.
    change (1 =? 1) with true. change (3 =? 3) with true. cbv iota.
    replace (sub32 (R - 5) 3) with (R - 8)
      by (unfold sub32; rewrite wrap_id by (unfold int_min, int_max in *; lia); lia).
    destruct (scan fuel st need (hdr_plus 4 (R - 8)) (-1) 4) eqn:Hscan;
      [| discriminate | discriminate].
    exfalso. exact (scan_unmapped _ _ _ _ _ _ _ Hout Hscan).
Qed.
End Chain.

Lemma round_up_at_least_page n pagesize :
  0 < n -> 0 < pagesize -> pagesize <= round_up_to_page n pagesize.
Proof.
  intros Hn Hp. unfold round_up_to_page.
  assert (1 <= (n + pagesize - 1) / pagesize)
    by (apply Z.div_le_lower_bound; lia).
  nia.
Qed.

Lemma round_up_aligned n pagesize :
  0 < pagesize -> pagesize mod 8 = 0 -> round_up_to_page n pagesize mod 8 = 0.
Proof.
  intros Hp Ha. unfold round_up_to_page.
  rewrite <- Z.mul_mod_idemp_l, Ha by lia. reflexivity.
Qed.

(** A first successful call builds [init_state]. *)
Lemma Mem_Init_succeeds os st n :
  allocated_once st = 0 ->
  0 < n ->
  open_ok os = true -> mmap_ok os = true ->
  16 <= getpagesize os -> getpagesize os mod 8 = 0 ->
  round_up_to_page n (getpagesize os) <= int_max ->
  Mem_Init os st n = Ret (init_state (round_up_to_page n (getpagesize os)), 0).
Proof.
  intros Hflag Hn Hopen Hmmap Hmin Hal Hint.
  set (R := round_up_to_page n (getpagesize os)) in *.
  assert (HRp : getpagesize os <= R) by (apply round_up_at_least_page; lia).
  assert (HRa : R mod 8 = 0) by (apply round_up_aligned; lia).
  unfold Mem_Init. rewrite Hflag, Hopen, Hmmap.
  change (negb (0 =? 0)) with false. cbv iota.
  destruct (Z.leb_spec n 0); [lia |].
  destruct (Z.eqb_spec (getpagesize os) 0); [lia |].
  cbn [negb]. cbv zeta.
  assert (Halloc : add32 n (Z.rem (sub32 (getpagesize os)
                                        (Z.rem n (getpagesize os)))
                                 (getpagesize os)) = R).
  { unfold add32. rewrite padded_size by lia. fold R.
    apply wrap_id. unfold int_min, int_max in *. lia. }
  rewrite Halloc. clearbody R.
  replace (sub32 R 8) with (R - 8)
    by (unfold sub32; rewrite wrap_id by (unfold int_min, int_max in *; lia); lia).
  change (hdr_plus 0 1) with 4.
  rewrite store_mapped by (cbn; lia). cbn [mbind result_bind region_size cells].
  rewrite load_mapped by (cbn; lia). cbn [mbind result_bind region_size cells].
  rewrite lookup_insert_eq. change (default 0 (Some (R - 8))) with (R - 8).
  rewrite store_mapped by (cbn; lia). cbn [mbind result_bind region_size cells].
  rewrite store_mapped by (cbn; lia). cbn [mbind result_bind region_size cells].
  rewrite store_mapped by (cbn; lia). cbn [mbind result_bind region_size cells].
  unfold init_state, init_heap, add32.
  rewrite wrap_id by (unfold int_min, int_max in *; lia).
  replace (4 + (R - 8) - 4) with (R - 8) by lia.
  replace (4 + (R - 8)) with (R - 4) by lia.
  replace (R - 8 + 2) with (R - 6) by lia.
  reflexivity.
Qed.

(** A call returns [0] only when the flag was clear, the size positive and
    both system calls succeeded. *)
Lemma Mem_Init_success_inv os st n st' :
  Mem_Init os st n = Ret (st', 0) ->
  allocated_once st = 0 /\ 0 < n /\ open_ok os = true /\ mmap_ok os = true /\
  allocated_once st' = 1.
Proof.
  unfold Mem_Init.
  destruct (Z.eqb_spec 0 (allocated_once st)); cbn [negb]; [| discriminate].
  destruct (Z.leb_spec n 0); [discriminate |].
  destruct (getpagesize os =? 0); [discriminate |].
  destruct (open_ok os); cbn [negb]; [| discriminate].
  destruct (mmap_ok os); cbn [negb]; [| discriminate].
  cbv zeta.
  repeat match goal with
  | |- context [store ?h ?a ?v] =>
      destruct (store h a v); cbn [mbind result_bind]; try discriminate
  | |- context [load ?h ?a] =>
      destruct (load h a); cbn [mbind result_bind]; try discriminate
  end.
  intros [= <-]. cbn. repeat split; auto; lia.
Qed.

(** Once the flag is set every further call is refused and changes nothing. *)
Lemma Mem_Init_again os st n :
  allocated_once st <> 0 -> Mem_Init os st n = Ret (st, -1).
Proof.
  intros H. unfold Mem_Init.
  destruct (Z.eqb_spec 0 (allocated_once st)); [congruence | reflexivity].
Qed.

Lemma Mem_Init_not_positive os st n :
  n <= 0 -> Mem_Init os st n = Ret (st, -1).
Proof.
  intros H. unfold Mem_Init.
  destruct (negb (0 =? allocated_once st)); [reflexivity |].
  destruct (Z.leb_spec n 0); [reflexivity | lia].
Qed.

(** ** Sequences of calls after a successful [Mem_Init] *)

Lemma run_call_keeps_flag fuel st c st' :
  allocated_once st <> 0 -> run_call fuel st c = Ret st' ->
  allocated_once st' <> 0.
Proof.
  intros Hflag. destruct c as [os n | n | p |]; cbn [run_call].
  - rewrite Mem_Init_again by assumption. cbn. intros [= <-]. assumption.
  - destruct (Mem_Alloc fuel st n) as [[st1 q] | |] eqn:Ha; cbn;
      [| discriminate | discriminate].
    intros [= <-]. rewrite (Mem_Alloc_keeps_flag _ _ _ _ _ Ha). assumption.
  - cbn. intros [= <-]. assumption.
  - destruct (Mem_Dump fuel st); cbn; [| discriminate | discriminate].
    intros [= <-]. assumption.
Qed.

Lemma run_calls_keep_flag fuel cs :
  forall st st', allocated_once st <> 0 -> run_calls fuel st cs = Ret st' ->
  allocated_once st' <> 0.
Proof.
  induction cs as [| c cs IH]; intros st st' Hflag; cbn [run_calls].
  - intros [= <-]. assumption.
  - destruct (run_call fuel st c) as [st1 | |] eqn:Hc; cbn;
      [| discriminate | discriminate].
    apply IH. exact (run_call_keeps_flag _ _ _ _ Hflag Hc).
Qed.

Lemma run_call_keeps_shape R fuel st c st' :
  16 <= R -> R mod 8 = 0 -> R <= int_max ->
  chain_shape R st -> run_call fuel st c = Ret st' -> chain_shape R st'.
Proof.
  intros Hmin Hal Hint Hs. destruct c as [os n | n | p |]; cbn [run_call].
  - rewrite Mem_Init_again by (destruct Hs as (-> & _); lia).
    cbn. intros [= <-]. assumption.
  - destruct (Mem_Alloc fuel st n) as [[st1 q] | |] eqn:Ha; cbn;
      [| discriminate | discriminate].
    intros [= <-]. exact (shape_alloc R Hmin Hal Hint _ _ _ _ _ Hs Ha).
  - cbn. intros [= <-]. assumption.
  - destruct (Mem_Dump fuel st); cbn; [| discriminate | discriminate].
    intros [= <-]. assumption.
Qed.

Lemma run_calls_keep_shape R fuel cs :
  16 <= R -> R mod 8 = 0 -> R <= int_max ->
  forall st st',
    chain_shape R st -> run_calls fuel st cs = Ret st' -> chain_shape R st'.
Proof.
  intros Hmin Hal Hint.
  induction cs as [| c cs IH]; intros st st' Hs; cbn [run_calls].
  - intros [= <-]. assumption.
  - destruct (run_call fuel st c) as [st1 | |] eqn:Hc; cbn;
      [| discriminate | discriminate].
    apply IH. exact (run_call_keeps_shape R _ _ _ _ Hmin Hal Hint Hs Hc).
Qed.

(** ** Concrete runs *)

(** A system with 4096-byte pages on which [open] and [mmap] succeed. *)
Definition os4096 : os_reply := Os 4096 true true.

(** The state after [Mem_Init(4096)] and then [Mem_Alloc(4084)], a request
    that needs the whole free block: only the busy bit of the first header
    has changed. *)
Definition full_state : state :=
  State 1 (Some 4) (Heap 4096 (<[4 := 4091]> (cells (init_heap 4096)))).

Lemma init_4096 :
  Mem_Init os4096 initial_state 4096 = Ret (init_state 4096, 0).
Proof. vm_compute. reflexivity. Qed.

Lemma alloc_whole_block fuel :
  Mem_Alloc (S fuel) (init_state 4096) 4084 = Ret (full_state, Some 20).
Proof. vm_compute. reflexivity. Qed.

(** * The claims *)

(** C8. Whatever pointer it is given (null, misaligned, already freed),
    [Mem_Free] returns [0] and leaves the state as it found it: no header,
    footer or payload word of the region reads differently afterwards. *)
Theorem Mem_Free_inert :
  forall (st : state) (p : ptr),
    snd (Mem_Free st p) = 0 /\
    fst (Mem_Free st p) = st /\
    forall a, load (mem (fst (Mem_Free st p))) a = load (mem st) a.
Proof. intros st p. cbn. auto. Qed.

(** C1. [Mem_Free] reports success on the null pointer, on a pointer that
    is not 8-byte aligned, and on the payload pointer of a block whose header
    says it is free, where the comment above it asks for [-1]. *)
Theorem Mem_Free_accepts_bad_pointers :
  snd (Mem_Free (init_state 4096) None) = 0 /\
  (12 mod 8 <> 0 /\ snd (Mem_Free (init_state 4096) (Some 12)) = 0) /\
  (load (mem (init_state 4096)) (8 - sizeof_blk_hdr) = Ret 4090 /\
   hdr_busy 4090 = false /\
   snd (Mem_Free (init_state 4096) (Some 8)) = 0) /\
  (snd (Mem_Free full_state (Some 20)) = 0 /\
   snd (Mem_Free (fst (Mem_Free full_state (Some 20))) (Some 20)) = 0).
Proof. vm_compute. repeat split; congruence. Qed.

(** C2. After [Mem_Init(4096)], [Mem_Alloc(4084)] returns a pointer; once
    that pointer, the only one handed out, has been given to [Mem_Free], the
    chain still consists of one busy block of 4088 bytes, not of one free
    block. *)
Theorem free_does_not_restore_the_chain :
  Mem_Init os4096 initial_state 4096 = Ret (init_state 4096, 0) /\
  (forall fuel,
     Mem_Alloc (S fuel) (init_state 4096) 4084 = Ret (full_state, Some 20)) /\
  snd (Mem_Free full_state (Some 20)) = 0 /\
  forall k,
    Mem_Dump (S (S k)) (fst (Mem_Free full_state (Some 20)))
    = Ret (Report [Row 1 true true 4 4091 4088] 4088 0).
Proof.
  split; [exact init_4096 |]. split; [exact alloc_whole_block |].
  split; [reflexivity |]. intros k. vm_compute. reflexivity.
Qed.

(** C4. After [Mem_Init(4096)] the block chosen by [Mem_Alloc(4084)] has
    its header at offset 4; the pointer returned is [ptr + 4] on a
    [blk_hdr*], 16 bytes past the header: offset 20, which is neither the
    header address plus 4 nor a multiple of 8. *)
Theorem returned_pointer_is_four_headers_on :
  first_blk (init_state 4096) = Some 4 /\
  (forall fuel,
     Mem_Alloc (S fuel) (init_state 4096) 4084 = Ret (full_state, Some 20)) /\
  20 = 4 + 4 * sizeof_blk_hdr /\
  20 <> 4 + sizeof_blk_hdr /\
  20 mod 8 <> 0.
Proof.
  split; [reflexivity |]. split; [exact alloc_whole_block |].
  vm_compute. repeat split; congruence.
Qed.

(** In general a pointer returned by [Mem_Alloc] lies 16 bytes past the
    header of a free block of exactly the needed size; with headers at
    offsets 4 modulo 8 it is never a multiple of 8. *)
Lemma returned_pointer_misaligned fuel st size st' a :
  Mem_Alloc fuel st size = Ret (st', Some a) ->
  exists blk, a = blk + 16 /\ (blk mod 8 = 4 -> a mod 8 = 4).
Proof.
  intros H. destruct (Mem_Alloc_returns _ _ _ _ _ H) as [[_ [=]] | (blk & w & H')].
  destruct H' as (_ & _ & _ & _ & _ & _ & [= ->]).
  exists blk. unfold hdr_plus, sizeof_blk_hdr. split; lia.
Qed.

(** [Mem_Alloc] does not return when the first block is free and larger
    than the request. *)
Lemma Mem_Alloc_diverges_at_candidate fuel st size first w :
  size <> 0 ->
  first_blk st = Some first ->
  load (mem st) first = Ret w ->
  w <> 1 -> Z.land w 1 <> 1 -> w > add32 (needed_size size) 2 ->
  Mem_Alloc fuel st size = Timeout.
Proof.
  intros Hsize Hfirst Hload Hw1 Hfree Hbig. unfold Mem_Alloc, alloc_search.
  destruct (Z.eqb_spec size 0); [contradiction |].
  rewrite Hfirst.
  rewrite (scan_diverges_at_candidate _ _ _ _ w); auto.
Qed.

(** So on the chain [Mem_Init] builds, a first request smaller than the
    whole region does not return. *)
Lemma first_small_request_never_returns fuel :
  Mem_Alloc fuel (init_state 4096) 16 = Timeout.
Proof.
  apply (Mem_Alloc_diverges_at_candidate fuel (init_state 4096) 16 4 4090);
    vm_compute; congruence.
Qed.

(** A well-formed chain in a 4096-byte region with free blocks of 32, 64
    and 40 bytes, each between busy blocks; payloads were never written.

<<
    offset   4: free 32, previous busy (34), footer 32 at offset 32
    offset  36: busy 8, previous free (9)
    offset  44: free 64, previous busy (66), footer 64 at offset 104
    offset 108: busy 8, previous free (9)
    offset 116: free 40, previous busy (42), footer 40 at offset 152
    offset 156: busy 3936, previous free (3937)
    offset 4092: end mark (1)
>> *)
Definition chain_32_64_40 : state :=
  State 1 (Some 4)
    (Heap 4096
       (list_to_map
          [(4, 34); (32, 32); (36, 9); (44, 66); (104, 64); (108, 9);
           (116, 42); (152, 40); (156, 3937); (4092, 1)])).

Lemma chain_32_64_40_dump :
  Mem_Dump 7 chain_32_64_40
  = Ret (Report [Row 1 false true 4 35 32;
                 Row 2 true false 36 43 8;
                 Row 3 false true 44 107 64;
                 Row 4 true false 108 115 8;
                 Row 5 false true 116 155 40;
                 Row 6 true false 156 4091 3936]
                3952 136).
Proof. vm_compute. reflexivity. Qed.

(** C3. After [Mem_Init(4096)] the chain has one free block, of 4088
    bytes; [Mem_Alloc(16)], which needs 24, records it as candidate and then
    reads the same header for ever, so the scan never reaches the end mark
    and nothing is selected.  On a chain with free blocks of 32, 64 and 40
    bytes, a request of 36 bytes needs 40: [Mem_Alloc] passes the 32-byte
    block by adding its size to a [blk_hdr*], which moves 128 bytes and not
    32, to offset 132 inside the payload of the 40-byte block; the word
    there is 0, the loop advances by 0 and never ends.  No block is
    selected, whatever the fuel. *)
Theorem best_fit_example_never_returns :
  (Mem_Init os4096 initial_state 4096 = Ret (init_state 4096, 0) /\
   forall fuel, Mem_Alloc fuel (init_state 4096) 16 = Timeout) /\
  needed_size 36 = 40 /\
  hdr_plus 4 32 = 132 /\
  load (mem chain_32_64_40) 132 = Ret 0 /\
  forall fuel, Mem_Alloc fuel chain_32_64_40 36 = Timeout.
Proof.
  split; [split; [exact init_4096 | exact first_small_request_never_returns] |].
  split; [reflexivity |]. split; [reflexivity |]. split; [reflexivity |].
  intros fuel. unfold Mem_Alloc, alloc_search.
  change (36 =? 0) with false. change (needed_size 36) with 40.
  change (first_blk chain_32_64_40) with (Some 4). cbv iota.
  destruct fuel as [| fuel]; [reflexivity |].
  cbn [scan]. change (load (mem chain_32_64_40) 4) with (Ret (A := Z) 34).
  cbn [mbind result_bind].
  change (34 =? 1) with false. change (Z.land 34 1 =? 1) with false.
  change (34 >? add32 40 2) with false.
  change ((34 =? 40) || (sub32 34 2 =? 40)) with false.
  change (Z.land 34 2 =? 2) with true. cbv iota.
  change (hdr_plus 4 (sub32 34 2)) with 132.
  rewrite scan_spins_on_zero; [reflexivity | reflexivity | | |]; vm_compute;
    congruence.
Qed.

(** A well-formed chain that starts with a free block of 64 bytes.

<<
    offset   4: free 64, previous busy (66), footer 64 at offset 64
    offset  68: busy 4024, previous free (4025)
    offset 4092: end mark (1)
>> *)
Definition chain_64 : state :=
  State 1 (Some 4)
    (Heap 4096 (list_to_map [(4, 66); (64, 64); (68, 4025); (4092, 1)])).

Lemma chain_64_dump :
  Mem_Dump 3 chain_64
  = Ret (Report [Row 1 false true 4 67 64; Row 2 true false 68 4091 4024]
                4024 64).
Proof. vm_compute. reflexivity. Qed.

(** C5. A request of 16 bytes needs 24.  The free block of 4088 bytes
    that [Mem_Init(4096)] builds exceeds that by 4064, and the 64-byte free
    block at the head of [chain_64] by 40.  In both cases the loop records
    the block as its candidate and reads the same header again, for ever:
    [Mem_Alloc] does not return, and the code that would split the block is
    not reached. *)
Theorem split_example_never_returns :
  needed_size 16 = 24 /\
  (load (mem (init_state 4096)) 4 = Ret 4090 /\
   hdr_size 4090 = 4088 /\ hdr_busy 4090 = false /\
   forall fuel, Mem_Alloc fuel (init_state 4096) 16 = Timeout) /\
  (load (mem chain_64) 4 = Ret 66 /\
   hdr_size 66 = 64 /\ hdr_busy 66 = false /\
   forall fuel, Mem_Alloc fuel chain_64 16 = Timeout).
Proof.
  split; [reflexivity |]. split.
  - split; [reflexivity |]. split; [reflexivity |]. split; [reflexivity |].
    exact first_small_request_never_returns.
  - split; [reflexivity |]. split; [reflexivity |]. split; [reflexivity |].
    intros fuel.
    apply (Mem_Alloc_diverges_at_candidate fuel chain_64 16 4 66);
      vm_compute; congruence.
Qed.

(** Were the code under [if (minSize != -1)] run on that block, with the
    24 bytes needed and the 64 bytes found, it would write the header of the
    remainder 24 headers (96 bytes) past the block and the footer 60 headers
    (240 bytes) past it. *)
Lemma split_on_chain_64 :
  split (mem chain_64) 24 64 4
  = Ret (Heap 4096 (<[244 := 40]> (<[100 := 42]> (<[4 := 27]>
           (cells (mem chain_64))))), Some 20).
Proof. vm_compute. reflexivity. Qed.

(** A chain written by hand, which no sequence of calls builds, that starts
    with a free block of 8 bytes.

<<
    offset   4: free 8, previous busy (10), footer 8 at offset 8
    offset  12: busy 4080, previous free (4081)
    offset 4092: end mark (1)
>> *)
Definition chain_8 : state :=
  State 1 (Some 4)
    (Heap 4096 (list_to_map [(4, 10); (8, 8); (12, 4081); (4092, 1)])).

Lemma negative_request_on_chain_8 fuel :
  Mem_Alloc (S fuel) chain_8 (-1)
  = Ret (State 1 (Some 4) (Heap 4096 (<[4 := 11]> (cells (mem chain_8)))),
         Some 20).
Proof. vm_compute. reflexivity. Qed.

Lemma needed_size_negative size :
  int_min <= size < 0 ->
  needed_size size
  = if Z.rem (size + 4) 8 =? 0 then size + 4
    else 8 * (Z.quot (size + 4) 8 + 1).
Proof.
  intros Hs. unfold needed_size, add32, mul32.
  rewrite (wrap_id (size + 4)) by (unfold int_min, int_max in *; lia).
  destruct (Z.eqb_spec (Z.rem (size + 4) 8) 0); cbn [negb]; [reflexivity |].
  rewrite (wrap_id (Z.quot (size + 4) 8 + 1))
    by (unfold int_min, int_max in *; lia).
  rewrite wrap_id by (unfold int_min, int_max in *; lia). lia.
Qed.

(** The rounding the spec names: the least multiple of 8 that is at least
    [z]. *)
Definition round_up_to_8 (z : Z) : Z := 8 * ((z + 7) / 8).

Lemma round_up_to_8_spec z :
  round_up_to_8 z mod 8 = 0 /\ z <= round_up_to_8 z < z + 8.
Proof. unfold round_up_to_8. lia. Qed.

(** For a negative request the code's rounding is the round-up only when
    [size + 4] is not negative or is a multiple of 8: otherwise C's division,
    which truncates towards zero, makes it 8 more. *)
Lemma needed_size_negative_rounding size :
  int_min <= size < 0 ->
  needed_size size
  = round_up_to_8 (size + 4)
    + (if (size + 4 <? 0) && negb ((size + 4) mod 8 =? 0) then 8 else 0).
Proof.
  intros Hs. rewrite (needed_size_negative size Hs). unfold round_up_to_8.
  destruct (Z.eqb_spec (Z.rem (size + 4) 8) 0);
    destruct (Z.ltb_spec (size + 4) 0);
    destruct (Z.eqb_spec ((size + 4) mod 8) 0); cbn [andb negb]; lia.
Qed.

Lemma negative_rounding_is_not_round_up :
  ~ (forall size, int_min <= size < 0 ->
       needed_size size = round_up_to_8 (size + 4)).
Proof.
  intros H. specialize (H (-5)). vm_compute in H.
  assert (Hcontra : 8 = 0) by (apply H; split; congruence).
  discriminate Hcontra.
Qed.

(** C9. A request of [-5] bytes passes the sanity check, which tests
    [size == 0] only, and goes on to the search.  There [size + 4] is [-1];
    [-1 % 8] is [-1], not 0, and [(-1 / 8 + 1) * 8] is 8, because C's
    division truncates towards zero: the needed size is 8, where [-1]
    rounded up to a multiple of 8 is 0.  After [Mem_Init(4096)] the call then
    never returns, as for every request smaller than the free block; the
    same holds for the request of [-4], whose needed size is 0. *)
Theorem negative_request_is_over_rounded :
  (forall fuel st,
     Mem_Alloc fuel st (-5) = alloc_search fuel st (needed_size (-5))) /\
  add32 (-5) 4 = -1 /\
  Z.rem (-1) 8 = -1 /\ Z.quot (-1) 8 = 0 /\
  needed_size (-5) = 8 /\
  round_up_to_8 (-5 + 4) = 0 /\
  Mem_Init os4096 initial_state 4096 = Ret (init_state 4096, 0) /\
  (forall fuel, Mem_Alloc fuel (init_state 4096) (-5) = Timeout) /\
  needed_size (-4) = 0 /\
  (forall fuel, Mem_Alloc fuel (init_state 4096) (-4) = Timeout).
Proof.
  split; [intros fuel st; reflexivity |].
  do 5 (split; [reflexivity |]).
  split; [exact init_4096 |].
  split; [| split; [reflexivity |]]; intros fuel.
  - apply (Mem_Alloc_diverges_at_candidate fuel (init_state 4096) (-5) 4 4090);
      vm_compute; congruence.
  - apply (Mem_Alloc_diverges_at_candidate fuel (init_state 4096) (-4) 4 4090);
      vm_compute; congruence.
Qed.

(** C10. With the flag clear, a call that fails because the size is not
    positive, because [/dev/zero] cannot be opened or because [mmap] fails
    returns [-1] and leaves [allocated_once] at 0; a later call can then
    succeed. *)
Theorem failed_init_leaves_flag_clear :
  forall (os : os_reply) (st : state) (n : Z),
    allocated_once st = 0 ->
    getpagesize os <> 0 ->
    n <= 0 \/ open_ok os = false \/ mmap_ok os = false ->
    exists st',
      Mem_Init os st n = Ret (st', -1) /\
      allocated_once st' = 0 /\
      exists os' n' st'', Mem_Init os' st' n' = Ret (st'', 0).
Proof.
  intros os st n Hflag Hpage Hwhy.
  assert (Hlater : forall s, allocated_once s = 0 ->
            exists os' n' st'', Mem_Init os' s n' = Ret (st'', 0)).
  { intros s Hs. exists os4096, 4096, (init_state 4096).
    apply (Mem_Init_succeeds os4096 s 4096); try assumption; try reflexivity;
      vm_compute; congruence. }
  unfold Mem_Init. rewrite Hflag. change (negb (0 =? 0)) with false. cbv iota.
  destruct (Z.leb_spec n 0) as [Hn | Hn].
  { exists st. split; [reflexivity |]. split; [exact Hflag |].
    apply Hlater, Hflag. }
  destruct (Z.eqb_spec (getpagesize os) 0); [contradiction |].
  destruct (open_ok os) eqn:Hopen; cbn [negb].
  - destruct (mmap_ok os) eqn:Hmmap; cbn [negb].
    + destruct Hwhy as [? | [? | ?]]; [lia | discriminate | discriminate].
    + eexists. split; [reflexivity |]. split; [reflexivity |].
      apply Hlater. reflexivity.
  - exists st. split; [reflexivity |]. split; [exact Hflag |].
    apply Hlater, Hflag.
Qed.

Lemma failed_init_witness :
  exists st',
    Mem_Init (Os 4096 true false) initial_state 4096 = Ret (st', -1) /\
    allocated_once st' = 0 /\
    exists os' n' st'', Mem_Init os' st' n' = Ret (st'', 0).
Proof.
  apply failed_init_leaves_flag_clear.
  - reflexivity.
  - cbn. lia.
  - right. right. reflexivity.
Defined.

(** C7, as stated, fails: the second call of the process succeeds when the
    first one was refused. *)
Lemma second_call_can_succeed :
  ~ (forall os1 n1 st1 r1 os2 n2 st2 r2,
       Mem_Init os1 initial_state n1 = Ret (st1, r1) ->
       Mem_Init os2 st1 n2 = Ret (st2, r2) ->
       r2 = -1).
Proof.
  intros H.
  specialize (H os4096 0 initial_state (-1) os4096 4096 (init_state 4096) 0
                eq_refl init_4096).
  discriminate H.
Qed.

(** C7, amended. [Mem_Init] returns [-1], and changes nothing, when the
    size asked for is not positive, and when an earlier call has returned
    [0], whatever calls were made in between. *)
Theorem Mem_Init_refusals :
  forall (os : os_reply) (st : state) (n : Z),
    (n <= 0 \/
     exists os0 st0 n0 st1 fuel cs,
       Mem_Init os0 st0 n0 = Ret (st1, 0) /\
       run_calls fuel st1 cs = Ret st) ->
    Mem_Init os st n = Ret (st, -1).
Proof.
  intros os st n [Hn | (os0 & st0 & n0 & st1 & fuel & cs & Hinit & Hrun)].
  - apply Mem_Init_not_positive. exact Hn.
  - apply Mem_Init_again.
    apply (run_calls_keep_flag fuel cs st1 st); [| exact Hrun].
    destruct (Mem_Init_success_inv _ _ _ _ Hinit) as (_ & _ & _ & _ & ->). lia.
Qed.

Lemma Mem_Init_refusals_witness :
  Mem_Init os4096 full_state 4096 = Ret (full_state, -1).
Proof.
  apply Mem_Init_refusals. right.
  exists os4096, initial_state, 4096, (init_state 4096), 1%nat,
         [CallAlloc 4084; CallFree (Some 20)].
  split; vm_compute; reflexivity.
Defined.

(** C6, as stated, fails: after [Mem_Init(4096)] on 4096-byte pages the
    block sizes add up to 4088, with the size 0 the end mark holds; counting
    the 4 bytes of the end-mark word instead still gives 4092. *)
Lemma chain_total_is_not_region_size :
  ~ (forall st k r,
       Mem_Init os4096 initial_state 4096 = Ret (st, 0) ->
       Mem_Dump k st = Ret r ->
       chain_total r = round_up_to_page 4096 (getpagesize os4096) \/
       sum_sizes (rows r) + sizeof_blk_hdr
       = round_up_to_page 4096 (getpagesize os4096)).
Proof.
  intros H.
  specialize (H (init_state 4096) 2%nat _ init_4096 eq_refl).
  vm_compute in H. destruct H as [H | H]; discriminate H.
Qed.

(** C6, amended. After a successful [Mem_Init] (on pages of a multiple of
    8 bytes, at least 16) and after every later call that returns, the dump
    walks blocks that lie end to end from offset 4 to the end mark in the
    last word of the region, and their sizes add up to the size asked for
    rounded up to the page size, less the 8 bytes kept for the alignment
    word and the end mark. *)
Theorem chain_after_every_call :
  forall (os : os_reply) (st : state) (n : Z) (st0 : state)
         (fuel : nat) (cs : list call) (st' : state),
    16 <= getpagesize os -> getpagesize os mod 8 = 0 ->
    round_up_to_page n (getpagesize os) <= int_max ->
    Mem_Init os st n = Ret (st0, 0) ->
    run_calls fuel st0 cs = Ret st' ->
    let R := round_up_to_page n (getpagesize os) in
    exists r,
      (forall k, Mem_Dump (S (S k)) st' = Ret r) /\
      first_blk st' = Some 4 /\
      contiguous 4 (rows r) (R - 4) /\
      load (mem st') (R - 4) = Ret end_mark_word /\
      region_size (mem st') = R /\
      chain_total r = R - 8.
Proof.
  intros os st n st0 fuel cs st' Hmin Hal Hint Hinit Hrun R.
  destruct (Mem_Init_success_inv _ _ _ _ Hinit)
    as (Hflag & Hn & Hopen & Hmmap & _).
  rewrite (Mem_Init_succeeds os st n) in Hinit by assumption.
  injection Hinit as <-. fold R in Hrun, Hint.
  assert (HRp : getpagesize os <= R) by (apply round_up_at_least_page; lia).
  assert (HRa : R mod 8 = 0) by (apply round_up_aligned; lia).
  clearbody R.
  assert (Hs : chain_shape R st').
  { apply (run_calls_keep_shape R fuel cs) with (st := init_state R);
      try assumption; try lia.
    apply init_state_shape; assumption || lia. }
  destruct (shape_dump R ltac:(lia) HRa Hint st' Hs) as (b & Hdump).
  eexists. split; [exact Hdump |].
  split; [apply Hs |].
  split; [cbn; lia |].
  split; [apply (end_mark_loaded R); assumption || lia |].
  split; [apply Hs |].
  unfold chain_total. cbn [rows sum_sizes foldr t_size].
  change (hdr_size end_mark_word) with 0. lia.
Qed.

Lemma chain_after_every_call_witness :
  exists r,
    (forall k, Mem_Dump (S (S k)) full_state = Ret r) /\
    first_blk full_state = Some 4 /\
    contiguous 4 (rows r) (4096 - 4) /\
    load (mem full_state) (4096 - 4) = Ret end_mark_word /\
    region_size (mem full_state) = 4096 /\
    chain_total r = 4096 - 8.
Proof.
  apply (chain_after_every_call os4096 initial_state 4096 (init_state 4096) 2
           [CallAlloc 4084; CallFree (Some 20); CallDump] full_state).
  - cbn. lia.
  - reflexivity.
  - vm_compute. congruence.
  - vm_compute. reflexivity.
  - vm_compute. reflexivity.
Defined.

(** * Further properties of the four functions *)

(** ** [Mem_Alloc] in any state *)

Lemma store_inv h a v h' :
  store h a v = Ret h' ->
  region_size h' = region_size h /\ cells h' = <[a := v]> (cells h) /\
  mapped h a = true.
Proof.
  unfold store. destruct (mapped h a); [| discriminate].
  intros [= <-]. auto.
Qed.

Lemma load_after_store h a v h' b :
  store h a v = Ret h' ->
  load h' b = if decide (a = b) then Ret v else load h b.
Proof.
  intros Hst. destruct (store_inv _ _ _ _ Hst) as (Hr & Hc & Hm).
  unfold load, mapped. rewrite Hr, Hc.
  destruct (decide (a = b)) as [<- | Hne].
  - unfold mapped in Hm. rewrite Hm, lookup_insert_eq. reflexivity.
  - rewrite lookup_insert_ne by assumption. reflexivity.
Qed.

(** X1. A call of [Mem_Alloc] that returns [NULL] has written nothing: the
    state is the one it was called in. *)
Theorem alloc_null_leaves_state :
  forall (fuel : nat) (st : state) (size : Z) (st' : state),
    Mem_Alloc fuel st size = Ret (st', None) -> st' = st.
Proof.
  intros fuel st size st' H.
  destruct (Mem_Alloc_returns _ _ _ _ _ H) as [[-> _] | (blk & w & H')];
    [reflexivity |].
  destruct H' as (_ & _ & _ & _ & _ & _ & [=]).
Qed.

Lemma alloc_null_leaves_state_witness :
  init_state 4096 = init_state 4096.
Proof.
  exact (alloc_null_leaves_state 0 (init_state 4096) 0 (init_state 4096)
           eq_refl).
Defined.

(** X2. A call of [Mem_Alloc] that returns a pointer has found a free
    block whose header word is the needed size, or the needed size plus 2;
    it has added 1 to that word and written nothing else, the two globals
    included; and the pointer is 16 bytes past that header. *)
Theorem alloc_pointer_is_exact_fit :
  forall (fuel : nat) (st : state) (size : Z) (st' : state) (a : Z),
    Mem_Alloc fuel st size = Ret (st', Some a) ->
    exists blk w,
      a = blk + 16 /\
      load (mem st) blk = Ret w /\
      hdr_busy w = false /\
      (w = needed_size size \/ sub32 w 2 = needed_size size) /\
      load (mem st') blk = Ret (add32 w 1) /\
      (forall b, b <> blk -> load (mem st') b = load (mem st) b) /\
      region_size (mem st') = region_size (mem st) /\
      allocated_once st' = allocated_once st /\
      first_blk st' = first_blk st.
Proof.
  intros fuel st size st' a H.
  destruct (Mem_Alloc_returns _ _ _ _ _ H) as [[_ [=]] | (blk & w & H')].
  destruct H' as (Hload & Hfree & Hfit & Hstore & Hflag & Hfirst & [= ->]).
  exists blk, w.
  split; [unfold hdr_plus, sizeof_blk_hdr; lia |].
  split; [exact Hload |].
  split.
  { unfold hdr_busy. rewrite land_1 in *.
    destruct (Z.eqb_spec (w mod 2) 0); [reflexivity | lia]. }
  split; [exact Hfit |].
  split.
  { rewrite (load_after_store _ _ _ _ blk Hstore).
    destruct (decide (blk = blk)); [reflexivity | contradiction]. }
  split.
  { intros b Hb. rewrite (load_after_store _ _ _ _ b Hstore).
    destruct (decide (blk = b)); [congruence | reflexivity]. }
  split; [apply (store_inv _ _ _ _ Hstore) |].
  split; assumption.
Qed.

Lemma alloc_pointer_is_exact_fit_witness :
  exists blk w,
    20 = blk + 16 /\
    load (mem (init_state 4096)) blk = Ret w /\
    hdr_busy w = false /\
    (w = needed_size 4084 \/ sub32 w 2 = needed_size 4084) /\
    load (mem full_state) blk = Ret (add32 w 1) /\
    (forall b, b <> blk ->
       load (mem full_state) b = load (mem (init_state 4096)) b) /\
    region_size (mem full_state) = region_size (mem (init_state 4096)) /\
    allocated_once full_state = allocated_once (init_state 4096) /\
    first_blk full_state = first_blk (init_state 4096).
Proof.
  exact (alloc_pointer_is_exact_fit 1 (init_state 4096) 4084 full_state 20
           (alloc_whole_block 0)).
Defined.

(** For a positive request the needed size is [size + 4] rounded up to a
    multiple of 8, as long as that fits an [int]. *)
Lemma needed_size_of_positive size :
  0 < size <= int_max - 11 ->
  needed_size size = round_up_to_8 (size + 4).
Proof.
  intros Hs. unfold needed_size, add32, mul32, round_up_to_8.
  unfold int_max in Hs.
  rewrite (wrap_id (size + 4)) by (unfold int_min, int_max; lia).
  destruct (Z.eqb_spec (Z.rem (size + 4) 8) 0); cbn [negb]; [lia |].
  rewrite (wrap_id (Z.quot (size + 4) 8 + 1))
    by (unfold int_min, int_max; lia).
  rewrite wrap_id by (unfold int_min, int_max; lia). lia.
Qed.

Lemma needed_size_positive_bounds size :
  0 < size <= int_max - 11 ->
  needed_size size = round_up_to_8 (size + 4) /\
  needed_size size mod 8 = 0 /\
  size + 4 <= needed_size size < size + 12.
Proof.
  intros Hs. rewrite (needed_size_of_positive size Hs).
  pose proof (round_up_to_8_spec (size + 4)). split; [reflexivity |]. lia.
Qed.

(** X3. For a request of 1 up to [INT_MAX - 11] bytes the needed size is
    the least multiple of 8 that leaves room for the request and the 4-byte
    header: a multiple of 8, at least [size + 4], less than [size + 12]. *)
Theorem needed_size_positive_request :
  forall size : Z,
    0 < size <= int_max - 11 ->
    needed_size size = round_up_to_8 (size + 4) /\
    needed_size size mod 8 = 0 /\
    size + 4 <= needed_size size < size + 12.
Proof.
  intros size Hs. rewrite (needed_size_of_positive size Hs).
  pose proof (round_up_to_8_spec (size + 4)). split; [reflexivity |]. lia.
Qed.

Lemma needed_size_positive_request_witness :
  needed_size 20 = round_up_to_8 (20 + 4) /\
  needed_size 20 mod 8 = 0 /\
  20 + 4 <= needed_size 20 < 20 + 12.
Proof.
  apply needed_size_positive_request. unfold int_max. lia.
Defined.

Lemma exact_fit_size w need :
  need mod 8 = 0 ->
  Z.land w 1 <> 1 ->
  w = need \/ sub32 w 2 = need ->
  hdr_size w = need.
Proof.
  intros Hneed Hfree Hfit. rewrite land_1 in Hfree.
  unfold hdr_size, hdr_prev_busy, strip_busy, hdr_busy.
  rewrite land_1. replace (w mod 2) with 0 by lia.
  change (negb (0 =? 0)) with false. cbv iota. rewrite land_2.
  destruct Hfit as [-> | Hsub].
  - replace (need mod 4) with 0 by lia. reflexivity.
  - assert (Hw : w mod 4 = 2).
    { pose proof (wrap_parity (w - 2)) as Hp. unfold sub32 in Hsub.
      unfold wrap in Hsub.
      change (2 ^ 31) with 2147483648 in Hsub.
      change (2 ^ 32) with 4294967296 in Hsub. lia. }
    rewrite Hw. exact Hsub.
Qed.

(** X4. The block behind a returned pointer is too small for the request:
    its size, as its header gives it, is the needed size, the pointer lies
    16 bytes into it, and the [size] bytes asked for end past the end of the
    block. *)
Theorem returned_payload_overruns_block :
  forall (fuel : nat) (st : state) (size : Z) (st' : state) (a : Z),
    0 < size <= int_max - 11 ->
    Mem_Alloc fuel st size = Ret (st', Some a) ->
    exists blk w,
      load (mem st) blk = Ret w /\
      hdr_size w = needed_size size /\
      a = blk + 16 /\
      blk + hdr_size w < a + size.
Proof.
  intros fuel st size st' a Hs H.
  destruct (needed_size_positive_bounds size Hs) as (_ & Hmod & Hrange).
  destruct (Mem_Alloc_returns _ _ _ _ _ H) as [[_ [=]] | (blk & w & H')].
  destruct H' as (Hload & Hfree & Hfit & _ & _ & _ & [= ->]).
  exists blk, w. split; [exact Hload |].
  rewrite (exact_fit_size w (needed_size size) Hmod Hfree Hfit).
  unfold hdr_plus, sizeof_blk_hdr. repeat split; lia.
Qed.

Lemma returned_payload_overruns_block_witness :
  exists blk w,
    load (mem (init_state 4096)) blk = Ret w /\
    hdr_size w = needed_size 4084 /\
    20 = blk + 16 /\
    blk + hdr_size w < 20 + 4084.
Proof.
  apply (returned_payload_overruns_block 1 (init_state 4096) 4084 full_state 20).
  - unfold int_max. lia.
  - exact (alloc_whole_block 0).
Defined.

(** X5. The loop of [Mem_Alloc] is never left through its condition with a
    candidate recorded: started as the function starts it, it reaches the end
    mark only with [minSize] still [-1] and [minBlock] still the first block,
    so the code under [if (minSize != -1)] is never run. *)
Theorem loop_never_exits_with_candidate :
  forall (fuel : nat) (st : state) (size first minSize minBlock : Z),
    scan fuel st size first (-1) first = Ret (Exited minSize minBlock) ->
    minSize = -1 /\ minBlock = first.
Proof.
  intros fuel st size first minSize minBlock.
  assert (Hgen : forall p,
            scan fuel st size p (-1) first = Ret (Exited minSize minBlock) ->
            minSize = -1 /\ minBlock = first); [| apply Hgen].
  induction fuel as [| fuel IH]; intros p; [discriminate |].
  cbn [scan]. destruct (load (mem st) p) as [w | |] eqn:Hload;
    cbn [mbind result_bind]; [| discriminate | discriminate].
  destruct (Z.eqb_spec w 1); [intros [= <- <-]; auto |].
  destruct (Z.eqb_spec (Z.land w 1) 1) as [Hb | Hb].
  - destruct (Z.land w 3 =? 3); [apply IH |].
    destruct (Mem_Dump fuel st); cbn [mbind result_bind];
      [apply IH | discriminate | discriminate].
  - destruct (Z.gtb_spec w (add32 size 2)) as [Hbig | Hbig].
    + change (-1 =? -1) with true. cbv iota.
      rewrite (scan_stuck fuel st size p w Hload); [discriminate | | | |];
        try assumption; [lia |].
      apply sub32_even_not_m1, free_word_even, Hb.
    + destruct ((w =? size) || (sub32 w 2 =? size)).
      * destruct (store (mem st) p (add32 w 1)); cbn [mbind result_bind];
          discriminate.
      * destruct (Z.land w 2 =? 2); apply IH.
Qed.

(** A chain that is only an end mark. *)
Definition chain_empty : state := State 1 (Some 4) (Heap 8 {[4 := 1]}).

Lemma loop_never_exits_with_candidate_witness : -1 = -1 /\ 4 = 4.
Proof.
  exact (loop_never_exits_with_candidate 1 chain_empty 8 4 (-1) 4 eq_refl).
Defined.

(** X6. When the first block is free and its header word exceeds the needed
    size by more than 2, [Mem_Alloc] does not return: the branch that
    records the candidate leaves [ptr] where it is. *)
Theorem larger_first_block_traps_alloc :
  forall (st : state) (size first w : Z),
    size <> 0 ->
    first_blk st = Some first ->
    load (mem st) first = Ret w ->
    w <> 1 -> hdr_busy w = false -> w > add32 (needed_size size) 2 ->
    forall fuel, Mem_Alloc fuel st size = Timeout.
Proof.
  intros st size first w Hsize Hfirst Hload Hw1 Hfree Hbig fuel.
  apply (Mem_Alloc_diverges_at_candidate fuel st size first w); try assumption.
  unfold hdr_busy in Hfree. intros Hodd. rewrite Hodd in Hfree. discriminate.
Qed.

Lemma larger_first_block_traps_alloc_witness :
  Mem_Alloc 1000 chain_64 20 = Timeout.
Proof.
  apply (larger_first_block_traps_alloc chain_64 20 4 66).
  - lia.
  - reflexivity.
  - reflexivity.
  - lia.
  - reflexivity.
  - vm_compute. reflexivity.
Defined.

(** X7. When the word under [first_blk] was never written (it reads 0),
    [Mem_Alloc] does not return for any request of 1 up to [INT_MAX - 11]
    bytes: the word is taken for a free block of size 0 and the loop steps
    by 0. *)
Theorem unwritten_first_word_traps_alloc :
  forall (st : state) (size first : Z),
    0 < size <= int_max - 11 ->
    first_blk st = Some first ->
    load (mem st) first = Ret 0 ->
    forall fuel, Mem_Alloc fuel st size = Timeout.
Proof.
  intros st size first Hs Hfirst Hload fuel.
  destruct (needed_size_positive_bounds size Hs) as (_ & Hmod & Hrange).
  unfold Mem_Alloc, alloc_search.
  destruct (Z.eqb_spec size 0); [lia |]. rewrite Hfirst.
  assert (Hadd : add32 (needed_size size) 2 = needed_size size + 2)
    by (unfold add32; apply wrap_id; unfold int_min, int_max in *; lia).
  rewrite scan_spins_on_zero; [reflexivity | exact Hload | | |].
  - rewrite Hadd. lia.
  - lia.
  - change (sub32 0 2) with (-2). lia.
Qed.

Lemma unwritten_first_word_traps_alloc_witness :
  Mem_Alloc 1000 (State 1 (Some 4) (Heap 4096 ∅)) 16 = Timeout.
Proof.
  apply (unwritten_first_word_traps_alloc (State 1 (Some 4) (Heap 4096 ∅)) 16 4).
  - unfold int_max. lia.
  - reflexivity.
  - reflexivity.
Defined.

(** ** How [Mem_Dump] reads what the other functions write *)

(** X8. A header word made of a size that is a multiple of 4 (the file keeps
    multiples of 8), plus 2 when the previous block is busy, plus 1 when the
    block is busy, is read back by [Mem_Dump] as that size and those two
    flags: 27 is a busy block of 24 bytes after a busy block. *)
Theorem dump_reads_header_word :
  forall (size : Z) (busy prev : bool),
    size mod 4 = 0 ->
    int_min <= size <= int_max - 3 ->
    let w := size + (if prev then 2 else 0) + (if busy then 1 else 0) in
    hdr_busy w = busy /\ hdr_prev_busy w = prev /\ hdr_size w = size.
Proof.
  intros size busy prev Hmod Hrange w. subst w.
  unfold int_min, int_max in Hrange.
  unfold hdr_size, hdr_prev_busy, strip_busy, hdr_busy, sub32.
  rewrite land_1.
  destruct busy, prev.
  - replace ((size + 2 + 1) mod 2) with 1 by lia. cbn [negb Z.eqb].
    rewrite (wrap_id (size + 2 + 1 - 1)) by (unfold int_min, int_max; lia).
    rewrite land_2. replace ((size + 2 + 1 - 1) mod 4) with 2 by lia.
    cbn. rewrite wrap_id by (unfold int_min, int_max; lia).
    repeat split; lia.
  - replace ((size + 0 + 1) mod 2) with 1 by lia. cbn [negb Z.eqb].
    rewrite (wrap_id (size + 0 + 1 - 1)) by (unfold int_min, int_max; lia).
    rewrite land_2. replace ((size + 0 + 1 - 1) mod 4) with 0 by lia.
    cbn. repeat split; lia.
  - replace ((size + 2 + 0) mod 2) with 0 by lia. cbn [negb Z.eqb].
    rewrite land_2. replace ((size + 2 + 0) mod 4) with 2 by lia.
    cbn. rewrite wrap_id by (unfold int_min, int_max; lia).
    repeat split; lia.
  - replace ((size + 0 + 0) mod 2) with 0 by lia. cbn [negb Z.eqb].
    rewrite land_2. replace ((size + 0 + 0) mod 4) with 0 by lia.
    cbn. repeat split; lia.
Qed.

Lemma dump_reads_header_word_witness :
  hdr_busy (24 + 2 + 1) = true /\ hdr_prev_busy (24 + 2 + 1) = true /\
  hdr_size (24 + 2 + 1) = 24.
Proof.
  apply (dump_reads_header_word 24 true true).
  - reflexivity.
  - unfold int_min, int_max. lia.
Defined.

(** X9. What [Mem_Alloc] does to the header it takes, [size_status += 1],
    turns a free block into a busy one and changes neither the size nor the
    previous-block flag that [Mem_Dump] reads from it. *)
Theorem marking_busy_keeps_size :
  forall w : Z,
    hdr_busy w = false ->
    int_min <= w < int_max ->
    hdr_busy (add32 w 1) = true /\
    hdr_prev_busy (add32 w 1) = hdr_prev_busy w /\
    hdr_size (add32 w 1) = hdr_size w.
Proof.
  intros w Hfree Hrange.
  assert (Hw : w mod 2 = 0).
  { unfold hdr_busy in Hfree. rewrite land_1 in Hfree.
    destruct (Z.eqb_spec (w mod 2) 0); [assumption | discriminate]. }
  unfold add32. rewrite (wrap_id (w + 1)) by (unfold int_min, int_max in *; lia).
  assert (Hb : hdr_busy (w + 1) = true).
  { unfold hdr_busy. rewrite land_1. replace ((w + 1) mod 2) with 1 by lia.
    reflexivity. }
  assert (Hs : strip_busy (w + 1) = strip_busy w).
  { unfold strip_busy. rewrite Hb, Hfree. unfold sub32.
    rewrite wrap_id by (unfold int_min, int_max in *; lia). lia. }
  unfold hdr_size, hdr_prev_busy. rewrite Hs. auto.
Qed.

Lemma marking_busy_keeps_size_witness :
  hdr_busy (add32 4090 1) = true /\
  hdr_prev_busy (add32 4090 1) = hdr_prev_busy 4090 /\
  hdr_size (add32 4090 1) = hdr_size 4090.
Proof.
  apply marking_busy_keeps_size.
  - reflexivity.
  - unfold int_min, int_max. lia.
Defined.

(** ** [Mem_Dump] *)

Lemma wrap_add_l a b : wrap (wrap a + b) = wrap (a + b).
Proof.
  unfold wrap.
  change (2 ^ 31) with 2147483648. change (2 ^ 32) with 4294967296. lia.
Qed.

Lemma wrap_add_r a b : wrap (a + wrap b) = wrap (a + b).
Proof. rewrite Z.add_comm, wrap_add_l. f_equal. lia. Qed.

Lemma dump_loop_totals fuel h :
  forall current counter busy free r,
    dump_loop fuel h current counter busy free = Ret r ->
    wrap (busy_size r + free_size r)
    = wrap (busy + free + sum_sizes (rows r)).
Proof.
  induction fuel as [| fuel IH]; intros current counter busy free r;
    [discriminate |].
  cbn [dump_loop]. destruct (load h current) as [w | |];
    cbn [mbind result_bind]; [| discriminate | discriminate].
  destruct (w =? 1).
  - intros [= <-]. cbn. f_equal. lia.
  - match goal with
    | |- context [dump_loop fuel h ?c ?n ?b ?f] =>
        destruct (dump_loop fuel h c n b f) as [r1 | |] eqn:Hrec
    end; cbn [mbind result_bind]; [| discriminate | discriminate].
    intros [= <-]. cbn [rows busy_size free_size sum_sizes foldr t_size].
    rewrite (IH _ _ _ _ _ Hrec). fold (sum_sizes (rows r1)).
    destruct (hdr_busy w); unfold add32.
    + rewrite <- Z.add_assoc, wrap_add_l. f_equal. lia.
    + rewrite (Z.add_comm busy), <- Z.add_assoc, wrap_add_l. f_equal. lia.
Qed.

(** X10. The total that [Mem_Dump] prints, [busy_size + free_size], is the
    sum of the sizes of the rows it has printed, as an [int]. *)
Theorem dump_total_is_sum_of_rows :
  forall (fuel : nat) (st : state) (r : dump_report),
    Mem_Dump fuel st = Ret r ->
    add32 (busy_size r) (free_size r) = wrap (sum_sizes (rows r)).
Proof.
  intros fuel st r. unfold Mem_Dump.
  destruct (first_blk st) as [first |]; [| discriminate].
  intros H. apply dump_loop_totals in H. exact H.
Qed.

Lemma dump_total_is_sum_of_rows_witness :
  add32 3952 136 = wrap (32 + (8 + (64 + (8 + (40 + (3936 + 0)))))).
Proof.
  exact (dump_total_is_sum_of_rows 7 chain_32_64_40 _ chain_32_64_40_dump).
Defined.

(** The rows a walk from [start] prints, row after row: each row shows the
    header word found where the row before ended, and the word after the
    last row is the end mark. *)
Fixpoint walked (h : heap) (start counter : Z) (rs : list dump_row) : Prop :=
  match rs with
  | [] => load h start = Ret 1
  | r :: rs' =>
    exists w,
      load h start = Ret w /\ w <> 1 /\
      r = Row counter (hdr_busy w) (hdr_prev_busy w)
              start (start + hdr_size w - 1) (hdr_size w) /\
      walked h (start + hdr_size w) (add32 counter 1) rs'
  end.

Lemma dump_loop_walked fuel h :
  forall current counter busy free r,
    dump_loop fuel h current counter busy free = Ret r ->
    walked h current counter (rows r).
Proof.
  induction fuel as [| fuel IH]; intros current counter busy free r;
    [discriminate |].
  cbn [dump_loop]. destruct (load h current) as [w | |] eqn:Hload;
    cbn [mbind result_bind]; [| discriminate | discriminate].
  destruct (Z.eqb_spec w 1) as [-> | Hw].
  - intros [= <-]. exact Hload.
  - match goal with
    | |- context [dump_loop fuel h ?c ?n ?b ?f] =>
        destruct (dump_loop fuel h c n b f) as [r1 | |] eqn:Hrec
    end; cbn [mbind result_bind]; [| discriminate | discriminate].
    intros [= <-]. cbn [rows walked]. exists w.
    rewrite Hload. repeat split; try assumption.
    exact (IH _ _ _ _ _ Hrec).
Qed.

Lemma walked_dump_loop h rs :
  forall start counter busy free,
    walked h start counter rs ->
    exists r,
      dump_loop (S (length rs)) h start counter busy free = Ret r /\
      rows r = rs.
Proof.
  induction rs as [| row rs IH]; intros start counter busy free.
  - cbn [walked length dump_loop]. intros ->. cbn. eauto.
  - cbn [walked]. intros (w & Hload & Hw & -> & Hrest).
    cbn [length]. remember (S (length rs)) as k eqn:Hk.
    cbn [dump_loop]. rewrite Hload. cbn [mbind result_bind].
    destruct (Z.eqb_spec w 1); [contradiction |].
    match goal with
    | |- context [dump_loop k h ?c ?n ?b ?f] =>
        destruct (IH c n b f Hrest) as (r1 & -> & Hrows)
    end.
    cbn [mbind result_bind]. eexists. split; [reflexivity |].
    cbn [rows]. rewrite Hrows. reflexivity.
Qed.

(** X11. The rows of a returning [Mem_Dump] are the chain as the headers
    give it: the first row starts at [first_blk], every row shows flags and
    size of the header word at its start and is numbered one more than the
    row before, the next row starts [size] bytes on, and the word after the
    last row is the end mark. *)
Theorem dump_rows_follow_headers :
  forall (fuel : nat) (st : state) (first : Z) (r : dump_report),
    first_blk st = Some first ->
    Mem_Dump fuel st = Ret r ->
    walked (mem st) first 1 (rows r).
Proof.
  intros fuel st first r Hfirst. unfold Mem_Dump. rewrite Hfirst.
  apply dump_loop_walked.
Qed.

Lemma dump_rows_follow_headers_witness :
  walked (mem chain_64) 4 1
    [Row 1 false true 4 67 64; Row 2 true false 68 4091 4024].
Proof.
  exact (dump_rows_follow_headers 3 chain_64 4 _ eq_refl chain_64_dump).
Defined.

(** X12. Conversely, when the headers from [first_blk] on form such a chain
    of [n] blocks up to an end mark, [Mem_Dump] returns after [n + 1] reads
    and prints exactly those rows. *)
Theorem dump_returns_on_a_chain :
  forall (st : state) (first : Z) (rs : list dump_row),
    first_blk st = Some first ->
    walked (mem st) first 1 rs ->
    exists r, Mem_Dump (S (length rs)) st = Ret r /\ rows r = rs.
Proof.
  intros st first rs Hfirst Hwalk. unfold Mem_Dump. rewrite Hfirst.
  apply walked_dump_loop. exact Hwalk.
Qed.

Lemma dump_returns_on_a_chain_witness :
  exists r,
    Mem_Dump 3 chain_64 = Ret r /\
    rows r = [Row 1 false true 4 67 64; Row 2 true false 68 4091 4024].
Proof.
  apply (dump_returns_on_a_chain chain_64 4
           [Row 1 false true 4 67 64; Row 2 true false 68 4091 4024]).
  - reflexivity.
  - cbn [walked]. exists 66. split; [reflexivity |]. split; [lia |].
    split; [reflexivity |].
    exists 4025. split; [reflexivity |]. split; [lia |].
    split; [reflexivity |]. reflexivity.
Defined.

Lemma dump_loop_spins fuel h current w :
  load h current = Ret w -> w <> 1 -> hdr_size w = 0 ->
  forall counter busy free,
    dump_loop fuel h current counter busy free = Timeout.
Proof.
  intros Hload Hw Hsize.
  induction fuel as [| fuel IH]; intros counter busy free; [reflexivity |].
  cbn [dump_loop]. rewrite Hload. cbn [mbind result_bind].
  destruct (Z.eqb_spec w 1); [contradiction |].
  rewrite Hsize, Z.add_0_r, IH. reflexivity.
Qed.

(** X13. [Mem_Dump] does not return when the word under [first_blk] is not
    the end mark and holds size 0, as a word that was never written does:
    it steps by 0 bytes and prints the same block again. *)
Theorem dump_spins_on_empty_block :
  forall (st : state) (first w : Z),
    first_blk st = Some first ->
    load (mem st) first = Ret w -> w <> 1 -> hdr_size w = 0 ->
    forall fuel, Mem_Dump fuel st = Timeout.
Proof.
  intros st first w Hfirst Hload Hw Hsize fuel.
  unfold Mem_Dump. rewrite Hfirst.
  apply (dump_loop_spins fuel (mem st) first w); assumption.
Qed.

Lemma dump_spins_on_empty_block_witness :
  Mem_Dump 1000 (State 1 (Some 4) (Heap 4096 ∅)) = Timeout.
Proof.
  apply (dump_spins_on_empty_block (State 1 (Some 4) (Heap 4096 ∅)) 4 0).
  - reflexivity.
  - reflexivity.
  - lia.
  - reflexivity.
Defined.

(** ** [Mem_Init] *)

(** X14. With the flag clear, a positive size, both system calls
    succeeding, pages of a multiple of 8 bytes (at least 16) and a rounded
    size within [int], [Mem_Init] returns 0, sets the flag, maps the least
    multiple [R] of the page size that holds the request and leaves in it
    one free block: header [R - 8 + 2] at offset 4, footer [R - 8] in the
    last word but one, end mark 1 in the last word, and 0 everywhere else. *)
Theorem Mem_Init_builds_one_free_block :
  forall (os : os_reply) (st : state) (n : Z),
    allocated_once st = 0 ->
    0 < n ->
    open_ok os = true -> mmap_ok os = true ->
    16 <= getpagesize os -> getpagesize os mod 8 = 0 ->
    round_up_to_page n (getpagesize os) <= int_max ->
    let R := round_up_to_page n (getpagesize os) in
    exists st',
      Mem_Init os st n = Ret (st', 0) /\
      allocated_once st' = 1 /\
      first_blk st' = Some 4 /\
      region_size (mem st') = R /\
      (R mod getpagesize os = 0 /\ n <= R < n + getpagesize os) /\
      load (mem st') 4 = Ret (R - 8 + 2) /\
      load (mem st') (R - 8) = Ret (R - 8) /\
      load (mem st') (R - 4) = Ret 1 /\
      forall a, a <> 4 -> a <> R - 8 -> a <> R - 4 ->
                mapped (mem st') a = true -> load (mem st') a = Ret 0.
Proof.
  intros os st n Hflag Hn Hopen Hmmap Hmin Hal Hint R.
  assert (HRp : getpagesize os <= R) by (apply round_up_at_least_page; lia).
  assert (HRa : R mod 8 = 0) by (apply round_up_aligned; lia).
  pose proof (round_up_to_page_spec n (getpagesize os) ltac:(lia)) as Hspec.
  exists (init_state R). split; [apply Mem_Init_succeeds; assumption |].
  fold R in Hspec. clearbody R. unfold init_state, init_heap. cbn.
  repeat split; try tauto.
  - rewrite load_mapped by (cbn; lia). cbn.
    rewrite lookup_insert_ne by lia. rewrite lookup_insert_ne by lia.
    rewrite lookup_insert_eq. cbn. f_equal. lia.
  - rewrite load_mapped by (cbn; lia). cbn.
    rewrite lookup_insert_eq. reflexivity.
  - rewrite load_mapped by (cbn; lia). cbn.
    rewrite lookup_insert_ne by lia. rewrite lookup_insert_eq. reflexivity.
  - intros a H4 H8 He Hmapped. unfold load. rewrite Hmapped. cbn.
    rewrite !lookup_insert_ne by lia. reflexivity.
Qed.

Lemma Mem_Init_builds_one_free_block_witness :
  exists st',
    Mem_Init os4096 initial_state 5000 = Ret (st', 0) /\
    allocated_once st' = 1 /\
    first_blk st' = Some 4 /\
    region_size (mem st') = round_up_to_page 5000 4096 /\
    (round_up_to_page 5000 4096 mod 4096 = 0 /\
     5000 <= round_up_to_page 5000 4096 < 5000 + 4096) /\
    load (mem st') 4 = Ret (round_up_to_page 5000 4096 - 8 + 2) /\
    load (mem st') (round_up_to_page 5000 4096 - 8)
    = Ret (round_up_to_page 5000 4096 - 8) /\
    load (mem st') (round_up_to_page 5000 4096 - 4) = Ret 1 /\
    forall a, a <> 4 -> a <> round_up_to_page 5000 4096 - 8 ->
              a <> round_up_to_page 5000 4096 - 4 ->
              mapped (mem st') a = true -> load (mem st') a = Ret 0.
Proof.
  apply (Mem_Init_builds_one_free_block os4096 initial_state 5000).
  - reflexivity.
  - lia.
  - reflexivity.
  - reflexivity.
  - cbn. lia.
  - reflexivity.
  - vm_compute. congruence.
Defined.

(** X15. [Mem_Init] returns 0 only when the flag was clear, the size
    positive and both [open] and [mmap] succeeded; the flag is then set. *)
Theorem Mem_Init_succeeds_only_when :
  forall (os : os_reply) (st : state) (n : Z) (st' : state),
    Mem_Init os st n = Ret (st', 0) ->
    allocated_once st = 0 /\ 0 < n /\
    open_ok os = true /\ mmap_ok os = true /\
    allocated_once st' = 1.
Proof.
  intros os st n st'.
  unfold Mem_Init.
  destruct (Z.eqb_spec 0 (allocated_once st)); cbn [negb]; [| discriminate].
  destruct (Z.leb_spec n 0); [discriminate |].
  destruct (getpagesize os =? 0); [discriminate |].
  destruct (open_ok os); cbn [negb]; [| discriminate].
  destruct (mmap_ok os); cbn [negb]; [| discriminate].
  cbv zeta.
  repeat match goal with
  | |- context [store ?h ?a ?v] =>
      destruct (store h a v); cbn [mbind result_bind]; try discriminate
  | |- context [load ?h ?a] =>
      destruct (load h a); cbn [mbind result_bind]; try discriminate
  end.
  intros [= <-]. cbn. repeat split; auto; lia.
Qed.

Lemma Mem_Init_succeeds_only_when_witness :
  allocated_once initial_state = 0 /\ 0 < 4096 /\
  open_ok os4096 = true /\ mmap_ok os4096 = true /\
  allocated_once (init_state 4096) = 1.
Proof.
  exact (Mem_Init_succeeds_only_when os4096 initial_state 4096
           (init_state 4096) init_4096).
Defined.

Lemma Mem_Init_refused_inv :
  forall (os : os_reply) (st : state) (n : Z) (st' : state) (r : Z),
    Mem_Init os st n = Ret (st', r) ->
    r <> 0 ->
    r = -1 /\ st' = st.
Proof.
  intros os st n st' r. unfold Mem_Init.
  destruct (Z.eqb_spec 0 (allocated_once st)) as [Hflag | Hflag]; cbn [negb];
    [| intros [= <- <-]; auto].
  destruct (n <=? 0); [intros [= <- <-]; auto |].
  destruct (getpagesize os =? 0); [discriminate |].
  destruct (open_ok os); cbn [negb]; [| intros [= <- <-]; auto].
  destruct (mmap_ok os); cbn [negb].
  - cbv zeta.
    repeat match goal with
    | |- context [store ?h ?a ?v] =>
        destruct (store h a v); cbn [mbind result_bind]; try discriminate
    | |- context [load ?h ?a] =>
        destruct (load h a); cbn [mbind result_bind]; try discriminate
    end.
    intros [= <- <-] Hr. contradiction.
  - intros [= <- <-] _. split; [reflexivity |].
    destruct st as [flag fb m]. cbn in *. congruence.
Qed.

(** X16. A call of [Mem_Init] that does not return 0 returns [-1] and has
    changed nothing: neither the flag, nor [first_blk], nor the memory. *)
Theorem refused_init_changes_nothing :
  forall (os : os_reply) (st : state) (n : Z) (st' : state) (r : Z),
    Mem_Init os st n = Ret (st', r) ->
    r <> 0 ->
    r = -1 /\ st' = st.
Proof.
  intros os st n st' r. unfold Mem_Init.
  destruct (Z.eqb_spec 0 (allocated_once st)) as [Hflag | Hflag]; cbn [negb];
    [| intros [= <- <-]; auto].
  destruct (n <=? 0); [intros [= <- <-]; auto |].
  destruct (getpagesize os =? 0); [discriminate |].
  destruct (open_ok os); cbn [negb]; [| intros [= <- <-]; auto].
  destruct (mmap_ok os); cbn [negb].
  - cbv zeta.
    repeat match goal with
    | |- context [store ?h ?a ?v] =>
        destruct (store h a v); cbn [mbind result_bind]; try discriminate
    | |- context [load ?h ?a] =>
        destruct (load h a); cbn [mbind result_bind]; try discriminate
    end.
    intros [= <- <-] Hr. contradiction.
  - intros [= <- <-] _. split; [reflexivity |].
    destruct st as [flag fb m]. cbn in *. congruence.
Qed.

Lemma refused_init_changes_nothing_witness :
  -1 = -1 /\ initial_state = initial_state.
Proof.
  apply (refused_init_changes_nothing (Os 4096 true false) initial_state 4096
           initial_state (-1)).
  - reflexivity.
  - lia.
Defined.

(** ** Before and after the first successful [Mem_Init] *)

Lemma run_call_before_init fuel c st' :
  run_call fuel initial_state c = Ret st' ->
  st' = initial_state \/ allocated_once st' <> 0.
Proof.
  destruct c as [os n | n | p |]; cbn [run_call].
  - destruct (Mem_Init os initial_state n) as [[st1 r] | |] eqn:Hinit;
      cbn [mbind result_bind]; [| discriminate | discriminate].
    intros [= <-]. destruct (Z.eq_dec r 0) as [-> | Hr].
    + right. destruct (Mem_Init_success_inv _ _ _ _ Hinit) as (_ & _ & _ & _ & ->).
      lia.
    + left. apply (Mem_Init_refused_inv _ _ _ _ _ Hinit Hr).
  - unfold Mem_Alloc. destruct (n =? 0); cbn; [| discriminate].
    intros [= <-]. auto.
  - cbn. intros [= <-]. auto.
  - cbn. discriminate.
Qed.

(** X17. As long as no call of [Mem_Init] has succeeded, every call that
    returns leaves the process as it started: after any sequence of
    returning calls with the flag still clear, the state is the initial
    one. *)
Theorem nothing_happens_before_init :
  forall (fuel : nat) (cs : list call) (st : state),
    run_calls fuel initial_state cs = Ret st ->
    allocated_once st = 0 ->
    st = initial_state.
Proof.
  intros fuel cs. induction cs as [| c cs IH]; intros st; cbn [run_calls].
  - intros [= <-] _. reflexivity.
  - destruct (run_call fuel initial_state c) as [st1 | |] eqn:Hc;
      cbn [mbind result_bind]; [| discriminate | discriminate].
    intros Hrun Hflag.
    destruct (run_call_before_init _ _ _ Hc) as [-> | Hset].
    + apply IH; assumption.
    + exfalso. exact (run_calls_keep_flag fuel cs st1 st Hset Hrun Hflag).
Qed.

Lemma nothing_happens_before_init_witness :
  initial_state = initial_state.
Proof.
  apply (nothing_happens_before_init 1
           [CallInit os4096 0; CallAlloc 0; CallFree None;
            CallInit (Os 4096 false true) 100]).
  - vm_compute. reflexivity.
  - reflexivity.
Defined.

Section AfterInit.
Variable R : Z.
Hypothesis R_min : 16 <= R.
Hypothesis R_aligned : R mod 8 = 0.
Hypothesis R_int : R <= int_max.

Lemma scan_unmapped_fault fuel st size p minSize minBlock :
  load (mem st) p = Fault ->
  scan (S fuel) st size p minSize minBlock = Fault.
Proof. intros Hload. cbn [scan]. rewrite Hload. reflexivity. Qed.

(** [Mem_Alloc] on the chain with its block free, by the needed size. *)
Lemma alloc_on_free_chain st size :
  chain_shape R st ->
  cells (mem st) !! 4 = Some (R - 6) ->
  size <> 0 ->
  let need := needed_size size in
  (R - 6 > add32 need 2 -> forall fuel, Mem_Alloc fuel st size = Timeout) /\
  (~ R - 6 > add32 need 2 -> need = R - 6 \/ need = R - 8 ->
   forall fuel,
     Mem_Alloc (S fuel) st size
     = Ret (State (allocated_once st) (first_blk st)
              (Heap R (<[4 := R - 5]> (cells (mem st)))), Some 20)) /\
  (~ R - 6 > add32 need 2 -> need <> R - 6 -> need <> R - 8 ->
   forall fuel, Mem_Alloc (S (S fuel)) st size = Fault).
Proof.
  intros Hs Hcell Hsize need.
  pose proof Hs as (Hflag & Hfirst & HR & _ & Hend).
  assert (Hout : load (mem st) (hdr_plus 4 (R - 8)) = Fault)
    by (apply load_beyond; unfold hdr_plus, sizeof_blk_hdr; lia).
  assert (Hload : load (mem st) 4 = Ret (R - 6)).
  { rewrite load_mapped by (rewrite ?HR; lia). rewrite Hcell. reflexivity. }
  assert (Hsub : sub32 (R - 6) 2 = R - 8)
    by (unfold sub32; rewrite wrap_id by (unfold int_min, int_max in *; lia); lia).
  assert (Hstep : forall fuel,
            Mem_Alloc (S fuel) st size
            = if R - 6 >? add32 need 2
              then e ← scan fuel st need 4 (R - 8) 4;
                   match e with
                   | Returned h' p =>
                       Ret (State (allocated_once st) (first_blk st) h', p)
                   | Exited minSize minBlock =>
                       if negb (minSize =? -1) then
                         '(h', p) ← split (mem st) need minSize minBlock;
                         Ret (State (allocated_once st) (first_blk st) h', p)
                       else Ret (st, None)
                   end
              else if (R - 6 =? need) || (R - 8 =? need)
              then Ret (State (allocated_once st) (first_blk st)
                          (Heap R (<[4 := R - 5]> (cells (mem st)))), Some 20)
              else e ← scan fuel st need (hdr_plus 4 (R - 8)) (-1) 4;
                   match e with
                   | Returned h' p =>
                       Ret (State (allocated_once st) (first_blk st) h', p)
                   | Exited minSize minBlock =>
                       if negb (minSize =? -1) then
                         '(h', p) ← split (mem st) need minSize minBlock;
                         Ret (State (allocated_once st) (first_blk st) h', p)
                       else Ret (st, None)
                   end).
  { intros fuel. unfold Mem_Alloc, alloc_search.
    destruct (Z.eqb_spec size 0); [contradiction |].
    rewrite Hfirst. fold need. cbn [scan]. rewrite Hload.
    cbn [mbind result_bind].
    destruct (Z.eqb_spec (R - 6) 1); [lia |].
    rewrite land_1, land_2, Hsub.
    replace ((R - 6) mod 2) with 0 by lia.
    replace ((R - 6) mod 4) with 2 by lia.
    change (0 =? 1) with false. change ((if 2 <? 2 then 0 else 2) =? 2) with true.
    change (-1 =? -1) with true. cbv iota.
    destruct (R - 6 >? add32 need 2); [reflexivity |].
    destruct ((R - 6 =? need) || (R - 8 =? need)); [| reflexivity].
    rewrite store_mapped by (rewrite ?HR; lia). cbn [mbind result_bind].
    rewrite HR. unfold add32.
    rewrite wrap_id by (unfold int_min, int_max in *; lia).
    replace (R - 6 + 1) with (R - 5) by lia. reflexivity. }
  split; [| split].
  - intros Hbig fuel.
    apply (Mem_Alloc_diverges_at_candidate fuel st size 4 (R - 6));
      try assumption; [lia | rewrite land_1; lia].
  - intros Hbig Hfit fuel. rewrite Hstep.
    destruct (Z.gtb_spec (R - 6) (add32 need 2)); [lia |].
    destruct (Z.eqb_spec (R - 6) need); [reflexivity |].
    destruct (Z.eqb_spec (R - 8) need); [reflexivity | lia].
  - intros Hbig Hne6 Hne8 fuel. rewrite Hstep.
    destruct (Z.gtb_spec (R - 6) (add32 need 2)); [lia |].
    destruct (Z.eqb_spec (R - 6) need); [lia |].
    destruct (Z.eqb_spec (R - 8) need); [lia |].
    cbn [orb]. rewrite scan_unmapped_fault by exact Hout. reflexivity.
Qed.

End AfterInit.

Lemma init_result os st n st0 :
  16 <= getpagesize os -> getpagesize os mod 8 = 0 ->
  round_up_to_page n (getpagesize os) <= int_max ->
  Mem_Init os st n = Ret (st0, 0) ->
  st0 = init_state (round_up_to_page n (getpagesize os)) /\
  16 <= round_up_to_page n (getpagesize os) /\
  round_up_to_page n (getpagesize os) mod 8 = 0.
Proof.
  intros Hmin Hal Hint Hinit.
  destruct (Mem_Init_success_inv _ _ _ _ Hinit)
    as (Hflag & Hn & Hopen & Hmmap & _).
  rewrite (Mem_Init_succeeds os st n) in Hinit by assumption.
  injection Hinit as <-. split; [reflexivity |]. split.
  - pose proof (round_up_at_least_page n (getpagesize os)). lia.
  - apply round_up_aligned; lia.
Qed.

(** X18. Right after a successful [Mem_Init] of [R] bytes (rounded), a
    request of [R - 19] up to [R - 12] bytes, one that needs the whole free
    block of [R - 8] bytes, returns the pointer at offset 20 and sets the
    busy bit of the first header. *)
Theorem whole_block_request_succeeds :
  forall (os : os_reply) (st : state) (n : Z) (st0 : state) (size : Z),
    16 <= getpagesize os -> getpagesize os mod 8 = 0 ->
    round_up_to_page n (getpagesize os) <= int_max ->
    Mem_Init os st n = Ret (st0, 0) ->
    0 < size ->
    round_up_to_page n (getpagesize os) - 20 < size
      <= round_up_to_page n (getpagesize os) - 12 ->
    forall fuel,
      exists st1,
        Mem_Alloc (S fuel) st0 size = Ret (st1, Some 20) /\
        load (mem st1) 4 = Ret (round_up_to_page n (getpagesize os) - 8 + 3).
Proof.
  intros os st n st0 size Hmin Hal Hint Hinit Hpos Hsize fuel.
  destruct (init_result os st n st0 Hmin Hal Hint Hinit) as (-> & HR & HRa).
  set (R := round_up_to_page n (getpagesize os)) in *. clearbody R.
  destruct (needed_size_positive_bounds size
              ltac:(unfold int_max in *; lia)) as (_ & Hmod & Hrange).
  assert (Hneed : needed_size size = R - 8) by lia.
  pose proof (init_state_shape R HR) as Hs.
  assert (Hcell : cells (mem (init_state R)) !! 4 = Some (R - 6)).
  { cbn. rewrite lookup_insert_ne by lia. rewrite lookup_insert_ne by lia.
    apply lookup_insert_eq. }
  destruct (alloc_on_free_chain R HR HRa Hint _ size Hs Hcell ltac:(lia))
    as (_ & Hfit & _).
  assert (Hadd : add32 (needed_size size) 2 = R - 6)
    by (unfold add32; rewrite wrap_id by (unfold int_min, int_max in *; lia); lia).
  eexists. split.
  - apply Hfit; [rewrite Hadd; lia | right; exact Hneed].
  - rewrite load_mapped by (cbn; lia). cbn.
    rewrite lookup_insert_eq. cbn. f_equal. lia.
Qed.

Lemma whole_block_request_succeeds_witness :
  exists st1,
    Mem_Alloc 1 (init_state 4096) 4080 = Ret (st1, Some 20) /\
    load (mem st1) 4 = Ret (round_up_to_page 4096 4096 - 8 + 3).
Proof.
  apply (whole_block_request_succeeds os4096 initial_state 4096).
  - cbn. lia.
  - reflexivity.
  - vm_compute. congruence.
  - exact init_4096.
  - lia.
  - vm_compute. split; congruence.
Defined.

(** X19. Right after a successful [Mem_Init], a smaller request, of 1 up
    to [R - 20] bytes, does not return: the free block is larger than needed
    and the loop never leaves it. *)
Theorem smaller_request_never_returns :
  forall (os : os_reply) (st : state) (n : Z) (st0 : state) (size : Z),
    16 <= getpagesize os -> getpagesize os mod 8 = 0 ->
    round_up_to_page n (getpagesize os) <= int_max ->
    Mem_Init os st n = Ret (st0, 0) ->
    0 < size <= round_up_to_page n (getpagesize os) - 20 ->
    forall fuel, Mem_Alloc fuel st0 size = Timeout.
Proof.
  intros os st n st0 size Hmin Hal Hint Hinit Hsize fuel.
  destruct (init_result os st n st0 Hmin Hal Hint Hinit) as (-> & HR & HRa).
  set (R := round_up_to_page n (getpagesize os)) in *. clearbody R.
  destruct (needed_size_positive_bounds size
              ltac:(unfold int_max in *; lia)) as (_ & Hmod & Hrange).
  pose proof (init_state_shape R HR) as Hs.
  assert (Hcell : cells (mem (init_state R)) !! 4 = Some (R - 6)).
  { cbn. rewrite lookup_insert_ne by lia. rewrite lookup_insert_ne by lia.
    apply lookup_insert_eq. }
  destruct (alloc_on_free_chain R HR HRa Hint _ size Hs Hcell ltac:(lia))
    as (Hbig & _ & _).
  apply Hbig. unfold add32.
  rewrite wrap_id by (unfold int_min, int_max in *; lia). lia.
Qed.

Lemma smaller_request_never_returns_witness :
  Mem_Alloc 1000 (init_state 4096) 100 = Timeout.
Proof.
  apply (smaller_request_never_returns os4096 initial_state 4096).
  - cbn. lia.
  - reflexivity.
  - vm_compute. congruence.
  - exact init_4096.
  - vm_compute. split; congruence.
Defined.

(** ** Where the loop of [Mem_Alloc] goes after the first block

    Reading outside the mapped region is undefined in C; what a process
    finds there is not part of this model, which stops the run.  The
    statements below say where the loop reads next, and what a returning call
    can have found inside the region; none of them concludes from the stop. *)











